(** * jsapi_ticket central server (mp/jssdk/ticket_server.go)

    A shallow embedding of [DefaultTicketServer]: the ticket cache, the
    [updateTicket] refresh decision with its expiry buffer switch, the
    [ticketUpdateDaemon] loop that serialises refresh requests and ticker
    firings, and the two public operations [Ticket] and [RefreshTicket]. *)

From Stdlib Require Import ZArith List String Ascii Bool Lia.
From Stdlib Require Import DecimalString Permutation.
Import ListNotations.

Local Open Scope string_scope.
Local Open Scope Z_scope.

(** ** Machine integers

    [int64] and [time.Duration] values are integers in two's complement on 64
    bits; arithmetic wraps around. *)

Definition wrap64 (z : Z) : Z := (z + 2 ^ 63) mod 2 ^ 64 - 2 ^ 63.

Definition int64_range (z : Z) : Prop := - 2 ^ 63 <= z < 2 ^ 63.

Definition sub64 (x y : Z) : Z := wrap64 (x - y).
Definition mul64 (x y : Z) : Z := wrap64 (x * y).
Definition neg64 (x : Z) : Z := wrap64 (- x).

(** [strconv.FormatInt(i, 10)]. *)
Definition FormatInt (i : Z) : string := NilZero.string_of_int (Z.to_int i).

(** ** Data *)

(** [type jsapiTicket struct { Ticket string; ExpiresIn int64 }] *)
Record jsapiTicket : Type := mkTicket {
  Ticket : string;
  ExpiresIn : Z
}.

(** [var zeroJsapiTicket jsapiTicket] *)
Definition zeroJsapiTicket : jsapiTicket := mkTicket "" 0.

(** Values of Go's [error] interface that reach this file: whatever
    [core.Client.GetJSON] fails with, the embedded [core.Error] of the decoded
    reply, and the two [errors.New] values of the expiry switch. *)
Inductive error : Type :=
| ClientError (msg : string)
| CoreError (ErrCode : Z) (ErrMsg : string)
| ErrorsNew (msg : string).

(** The anonymous [result] struct that [GetJSON] decodes into:
    [core.Error] and [jsapiTicket] embedded side by side. *)
Record getticketResult : Type := mkResult {
  rErrCode : Z;
  rErrMsg : string;
  rTicket : string;
  rExpiresIn : Z
}.

(** [type refreshTicketResult struct { ticket string; err error }] *)
Record refreshTicketResult : Type := mkRslt {
  rslt_ticket : string;
  rslt_err : option error
}.

(** What the process does that an observer can see, in program order:
    a write of the cache, the [n]-th call of [GetJSON], a value taken from
    [refreshTicketRequestChan], a value put on [refreshTicketResponseChan],
    [time.NewTicker(d)] and [ticker.Stop()]. *)
Inductive effect : Type :=
| EPutTicket (t : jsapiTicket)
| EGetJSON (n : nat)
| ERequest (currentTicket : string)
| EResponse (r : refreshTicketResult)
| ENewTicker (d : Z)
| ETickerStop.

(** The server together with the daemon's loop variable: the ticket held
    by [srv.ticketCache], the number of [GetJSON] calls made so far, the
    daemon's [tickDuration] in nanoseconds, and the effects so far, oldest
    first. *)
Record state : Type := mkState {
  ticketCache : jsapiTicket;
  calls : nat;
  tickDuration : Z;
  log : list effect
}.

Definition Second : Z := 1000000000.
Definition Hour : Z := 3600 * Second.

Definition nonempty (s : string) : bool := negb (s =? "")%string.

Definition emit (e : effect) (s : state) : state :=
  mkState (ticketCache s) (calls s) (tickDuration s) (log s ++ [e]).

(** ** A state monad for the server's methods *)

Definition M (A : Type) : Type := state -> A * state.

Definition ret {A : Type} (a : A) : M A := fun s => (a, s).

Definition bind {A B : Type} (m : M A) (k : A -> M B) : M B :=
  fun s => let (a, s') := m s in k a s'.

Notation "x <- m ;; k" := (bind m (fun x => k))
  (at level 61, m at next level, right associativity).
Notation "m ;;; k" := (bind m (fun _ => k))
  (at level 61, right associativity).

(** [func (cache *jsapiTicketCache) getTicket() (ticket jsapiTicket)] *)
Definition getTicket : M jsapiTicket := fun s => (ticketCache s, s).

(** [func (cache *jsapiTicketCache) putTicket(ticket jsapiTicket)] *)
Definition putTicket (ticket : jsapiTicket) : M unit :=
  fun s =>
    (tt, mkState ticket (calls s) (tickDuration s) (log s ++ [EPutTicket ticket])).

(** [func abs(x time.Duration) time.Duration] *)
Definition abs (x : Z) : Z := if x >=? 0 then x else neg64 x.

(** The daemon's two inputs: a value received on
    [refreshTicketRequestChan], or a firing of [ticker.C]. *)
Inductive event : Type :=
| Refresh (currentTicket : string)
| TickerC.

Section Server.

(** [core.ErrCodeOK], declared in package [core]. *)
Variable ErrCodeOK : Z.

(** The issuer as [srv.coreClient.GetJSON] sees it: what the [n]-th call on
    the getticket URL yields, an error or the decoded reply. *)
Variable issuer : nat -> error + getticketResult.

(** [srv.coreClient.GetJSON(incompleteURL, &result)] *)
Definition GetJSON : M (error + getticketResult) :=
  fun s =>
    (issuer (calls s),
     mkState (ticketCache s) (S (calls s)) (tickDuration s)
             (log s ++ [EGetJSON (calls s)])).

(** [func (srv *DefaultTicketServer) updateTicket(currentTicket string)
      (ticket jsapiTicket, cached bool, err error)]

    The named result [ticket] holds the cached value from the first line on,
    so the failure paths return it next to the error. *)
Definition updateTicket (currentTicket : string)
  : M (jsapiTicket * bool * option error) :=
  ticket <- getTicket ;;
  if nonempty currentTicket && nonempty (Ticket ticket)
     && negb (currentTicket =? Ticket ticket)%string
  then ret (ticket, true, None)
  else
    r <- GetJSON ;;
    match r with
    | inl err =>
        putTicket zeroJsapiTicket ;;;
        ret (ticket, false, Some err)
    | inr result =>
        if negb (rErrCode result =? ErrCodeOK)%Z then
          putTicket zeroJsapiTicket ;;;
          ret (ticket, false, Some (CoreError (rErrCode result) (rErrMsg result)))
        else
          let store (expiresIn : Z) :=
            let t := mkTicket (rTicket result) expiresIn in
            putTicket t ;;; ret (t, false, None) in
          let raw := rExpiresIn result in
          if raw >? 31556952 then
            putTicket zeroJsapiTicket ;;;
            ret (ticket, false,
                 Some (ErrorsNew ("expires_in too large: " ++ FormatInt raw)))
          else if raw >? 60 * 60 then store (sub64 raw (60 * 10))
          else if raw >? 60 * 30 then store (sub64 raw (60 * 5))
          else if raw >? 60 * 5 then store (sub64 raw 60)
          else if raw >? 60 then store (sub64 raw 10)
          else
            putTicket zeroJsapiTicket ;;;
            ret (ticket, false,
                 Some (ErrorsNew ("expires_in too small: " ++ FormatInt raw)))
    end.

(** The label [NEW_TICK_DURATION]: [time.NewTicker(tickDuration)] with the
    loop variable set to [d].  [time.NewTicker] panics on a period that is
    not positive: [None]. *)
Definition NewTicker (d : Z) (s : state) : option state :=
  if d <=? 0 then None
  else Some (mkState (ticketCache s) (calls s) d (log s ++ [ENewTicker d])).

(** [tickDuration = d; ticker.Stop(); goto NEW_TICK_DURATION] *)
Definition retune (d : Z) (s : state) : option state :=
  NewTicker d (emit ETickerStop s).

(** One turn of the [select] in [ticketUpdateDaemon]: the reply written to
    [refreshTicketResponseChan] (none for a ticker firing) and the state in
    which the loop waits again. *)
Definition daemon_step (ev : event) (s : state)
  : option (option refreshTicketResult * state) :=
  match ev with
  | Refresh currentTicket =>
      let '(jsapiTicket, cached, err, s1) :=
        updateTicket currentTicket (emit (ERequest currentTicket) s) in
      match err with
      | Some e =>
          let rslt := mkRslt "" (Some e) in
          Some (Some rslt, emit (EResponse rslt) s1)
      | None =>
          let rslt := mkRslt (Ticket jsapiTicket) None in
          let s2 := emit (EResponse rslt) s1 in
          if negb cached then
            match retune (mul64 (ExpiresIn jsapiTicket) Second) s2 with
            | Some s3 => Some (Some rslt, s3)
            | None => None
            end
          else Some (Some rslt, s2)
      end
  | TickerC =>
      let '(jsapiTicket, _, err, s1) := updateTicket "" s in
      match err with
      | Some _ => Some (None, s1)
      | None =>
          let newTickDuration := mul64 (ExpiresIn jsapiTicket) Second in
          if abs (sub64 (tickDuration s1) newTickDuration) >? mul64 Second 2
          then
            match retune newTickDuration s1 with
            | Some s2 => Some (None, s2)
            | None => None
            end
          else Some (None, s1)
      end
  end.

(** The daemon over a sequence of inputs, with the replies it sent. *)
Fixpoint daemon_run (evs : list event) (s : state)
  : option (list refreshTicketResult * state) :=
  match evs with
  | [] => Some ([], s)
  | ev :: evs' =>
      match daemon_step ev s with
      | None => None
      | Some (r, s1) =>
          match daemon_run evs' s1 with
          | None => None
          | Some (rs, s2) =>
              Some (match r with Some x => x :: rs | None => rs end, s2)
          end
      end
  end.

(** [func (srv *DefaultTicketServer) ticketUpdateDaemon(initTickDuration)]
    up to its first [select]: an empty cache and the first ticker. *)
Definition ticketUpdateDaemon (initTickDuration : Z) : option state :=
  NewTicker initTickDuration (mkState zeroJsapiTicket 0 initTickDuration []).

(** [NewDefaultTicketServer] with a client that is not nil; [r] is the
    value of [rand.Int63n(200)]. *)
Definition NewDefaultTicketServer (r : Z) : option state :=
  ticketUpdateDaemon (mul64 (mul64 Hour 24) (wrap64 (100 + r))).

(** [func (srv *DefaultTicketServer) RefreshTicket(currentTicket string)]:
    the send on the request channel meets the daemon's receive, and the
    caller takes the daemon's reply from the response channel.  Both
    channels are unbuffered and the daemon is the only receiver of requests,
    so callers that run at once are served in turn, each by one
    [daemon_step]. *)
Definition RefreshTicket (currentTicket : string) (s : state)
  : option ((string * option error) * state) :=
  match daemon_step (Refresh currentTicket) s with
  | Some (Some rslt, s') => Some ((rslt_ticket rslt, rslt_err rslt), s')
  | _ => None
  end.

(** [func (srv *DefaultTicketServer) Ticket() (ticket string, err error)]
    (the name [Ticket] is taken by the field of [jsapiTicket]). *)
Definition srvTicket (s : state) : option ((string * option error) * state) :=
  let ticket := Ticket (fst (getTicket s)) in
  if nonempty ticket then Some ((ticket, None), s)
  else RefreshTicket "" s.

End Server.

(** ** Notions used in the statements *)

(** The condition under which a caller's complaint is obsolete. *)
Definition stale_signal (currentTicket : string) (cached : jsapiTicket) : Prop :=
  currentTicket <> "" /\ Ticket cached <> "" /\ currentTicket <> Ticket cached.

(** The ways a fetch fails: the client's call fails, the issuer reports an
    application error, or the lifetime is outside the accepted bounds. *)
Definition fetch_failed (ErrCodeOK : Z) (r : error + getticketResult) : Prop :=
  match r with
  | inl _ => True
  | inr result =>
      rErrCode result <> ErrCodeOK
      \/ rExpiresIn result > 31556952
      \/ rExpiresIn result <= 60
  end.

(** A reply of the issuer that reports success with the given ticket and
    raw lifetime. *)
Definition issued (ErrCodeOK : Z) (r : error + getticketResult)
  (ticket : string) (raw : Z) : Prop :=
  exists msg, r = inr (mkResult ErrCodeOK msg ticket raw).

(** The daemon keeps its period a positive [int64]. *)
Definition period_ok (s : state) : Prop := 0 < tickDuration s < 2 ^ 63.

(** Kinds of effects, for counting them in a log. *)
Definition is_ticker_effect (e : effect) : bool :=
  match e with
  | ENewTicker _ | ETickerStop => true
  | _ => false
  end.

Definition is_put (e : effect) : bool :=
  match e with EPutTicket _ => true | _ => false end.

Definition is_fetch (e : effect) : bool :=
  match e with EGetJSON _ => true | _ => false end.

Definition count (p : effect -> bool) (l : list effect) : nat :=
  List.length (filter p l).

(** The state after a fetch that was the [calls s]-th and stored [t]. *)
Definition after_fetch (s : state) (t : jsapiTicket) : state :=
  mkState t (S (calls s)) (tickDuration s)
          ((log s ++ [EGetJSON (calls s)]) ++ [EPutTicket t]).

(** The safety margin taken off an accepted raw lifetime. *)
Definition margin (raw : Z) : Z :=
  if raw >? 3600 then 600
  else if raw >? 1800 then 300
  else if raw >? 300 then 60
  else 10.

(** The error a failed fetch is reported with. *)
Definition fetch_error (ErrCodeOK : Z) (r : error + getticketResult) : error :=
  match r with
  | inl e => e
  | inr result =>
      if rErrCode result =? ErrCodeOK then
        if rExpiresIn result >? 31556952 then
          ErrorsNew ("expires_in too large: " ++ FormatInt (rExpiresIn result))
        else
          ErrorsNew ("expires_in too small: " ++ FormatInt (rExpiresIn result))
      else CoreError (rErrCode result) (rErrMsg result)
  end.

(** What the caller of [RefreshTicket("")] is told when the issuer's reply
    to its fetch is [r]: the issuer's ticket when the reply reports success
    with an accepted lifetime, and otherwise no ticket and the error. *)
Definition reply_of (ErrCodeOK : Z) (r : error + getticketResult)
  : refreshTicketResult :=
  match r with
  | inl e => mkRslt "" (Some e)
  | inr result =>
      if (rErrCode result =? ErrCodeOK)
         && (60 <? rExpiresIn result) && (rExpiresIn result <=? 31556952)
      then mkRslt (rTicket result) None
      else mkRslt "" (Some (fetch_error ErrCodeOK r))
  end.

(** The three ways [updateTicket] ends. *)
Inductive update_outcome (ErrCodeOK : Z) (issuer : nat -> error + getticketResult)
  (currentTicket : string) (s : state)
  : jsapiTicket * bool * option error -> state -> Prop :=
| UShortCircuit :
    stale_signal currentTicket (ticketCache s) ->
    update_outcome ErrCodeOK issuer currentTicket s
      (ticketCache s, true, None) s
| UFailed :
    ~ stale_signal currentTicket (ticketCache s) ->
    fetch_failed ErrCodeOK (issuer (calls s)) ->
    update_outcome ErrCodeOK issuer currentTicket s
      (ticketCache s, false, Some (fetch_error ErrCodeOK (issuer (calls s))))
      (after_fetch s zeroJsapiTicket)
| UStored (ticket : string) (raw : Z) :
    ~ stale_signal currentTicket (ticketCache s) ->
    issued ErrCodeOK (issuer (calls s)) ticket raw ->
    60 < raw <= 31556952 ->
    update_outcome ErrCodeOK issuer currentTicket s
      (mkTicket ticket (raw - margin raw), false, None)
      (after_fetch s (mkTicket ticket (raw - margin raw))).

(** ** The expiry table as the specification lists it *)

Inductive verdict : Type :=
| Subtract (buffer : Z)
| FatalTooSmall
| FatalTooLarge.

(** A row "lo-hi"; the table does not say whether [lo] itself belongs to
    the row, so both readings are kept. *)
Definition in_range (lower_inclusive : bool) (lo hi raw : Z) : bool :=
  (if lower_inclusive then lo <=? raw else lo <? raw) && (raw <=? hi).

(** The rows in the order the specification lists them. *)
Definition listed_table (lower_inclusive : bool) : list ((Z -> bool) * verdict) :=
  [ (fun raw => raw >? 3600, Subtract 600);
    (in_range lower_inclusive 1800 3600, Subtract 300);
    (in_range lower_inclusive 300 1800, Subtract 60);
    (in_range lower_inclusive 60 300, Subtract 10);
    (fun raw => raw <=? 60, FatalTooSmall);
    (fun raw => raw >? 31556952, FatalTooLarge) ].

(** The same rows with the last one moved to the front, lower bounds
    exclusive: the order of the [switch] in [updateTicket]. *)
Definition switch_table : list ((Z -> bool) * verdict) :=
  [ (fun raw => raw >? 31556952, FatalTooLarge);
    (fun raw => raw >? 3600, Subtract 600);
    (in_range false 1800 3600, Subtract 300);
    (in_range false 300 1800, Subtract 60);
    (in_range false 60 300, Subtract 10);
    (fun raw => raw <=? 60, FatalTooSmall) ].

Fixpoint first_match (rows : list ((Z -> bool) * verdict)) (raw : Z)
  : option verdict :=
  match rows with
  | [] => None
  | (applies, v) :: rows' => if applies raw then Some v else first_match rows' raw
  end.

(** What an observer sees of a fetch: the lifetime that was stored, or
    which of the two validation failures was reported. *)
Inductive outcome : Type :=
| Buffered (stored : Z)
| TooSmall
| TooLarge
| OtherFailure.

Definition table_outcome (rows : list ((Z -> bool) * verdict)) (raw : Z)
  : outcome :=
  match first_match rows raw with
  | Some (Subtract b) => Buffered (raw - b)
  | Some FatalTooSmall => TooSmall
  | Some FatalTooLarge => TooLarge
  | None => OtherFailure
  end.

Definition observe (r : jsapiTicket * bool * option error * state) : outcome :=
  let '(_, _, err, s') := r in
  match err with
  | None => Buffered (ExpiresIn (ticketCache s'))
  | Some (ErrorsNew msg) =>
      if prefix "expires_in too small" msg then TooSmall
      else if prefix "expires_in too large" msg then TooLarge
      else OtherFailure
  | Some _ => OtherFailure
  end.

(** ** Concrete servers and issuers *)

(** The server as [NewDefaultTicketServer] leaves it when [rand.Int63n]
    gives 0: a period of 100 days. *)
Definition boot : state :=
  mkState zeroJsapiTicket 0 8640000000000000 [ENewTicker 8640000000000000].

(** A server that has ticket "A" cached with lifetime 6600. *)
Definition holding_A : state :=
  mkState (mkTicket "A" 6600) 1 6600000000000
          [ENewTicker 8640000000000000].

(** An issuer that always grants [ticket] for [raw] seconds
    ([core.ErrCodeOK] taken as 0). *)
Definition grants (ticket : string) (raw : Z) : nat -> error + getticketResult :=
  fun _ => inr (mkResult 0 "ok" ticket raw).

(** An issuer that grants "T1" for 7200 seconds first and "T2" for 3700
    seconds from then on. *)
Definition grants_T1_then_T2 : nat -> error + getticketResult :=
  fun n =>
    match n with
    | O => inr (mkResult 0 "ok" "T1" 7200)
    | S _ => inr (mkResult 0 "ok" "T2" 3700)
    end.

(** An issuer that cannot be reached. *)
Definition unreachable : nat -> error + getticketResult :=
  fun _ => inl (ClientError "dial tcp: i/o timeout").

(** An issuer that rejects the access token. *)
Definition rejects : nat -> error + getticketResult :=
  fun _ => inr (mkResult 40001 "invalid credential" "" 0).

(** ** Statements under test *)

(** Reading a log from the left.  A fetch begins at [EGetJSON] and is
    over when [putTicket] stores what came of it.  The result tells whether
    a fetch is in flight at the end of the log; [None] when a fetch began
    while another was in flight. *)
Fixpoint fetches_serial (busy : bool) (l : list effect) : option bool :=
  match l with
  | [] => Some busy
  | EGetJSON _ :: l' => if busy then None else fetches_serial true l'
  | EPutTicket _ :: l' => fetches_serial false l'
  | _ :: l' => fetches_serial busy l'
  end.

(** Single-flight as the specification words it: [n] calls of
    [RefreshTicket("")] cost one fetch and all receive the same reply. *)
Definition single_flight (ErrCodeOK : Z) (issuer : nat -> error + getticketResult)
  (n : nat) (s : state) : Prop :=
  exists rs s',
    daemon_run ErrCodeOK issuer (repeat (Refresh "") n) s = Some (rs, s')
    /\ calls s' = S (calls s)
    /\ forall r1 r2, In r1 rs -> In r2 rs -> r1 = r2.

(** The outcome of every fetch that the issuer answers with success is the
    one the first matching row of [rows] gives. *)
Definition follows_table (ErrCodeOK : Z) (issuer : nat -> error + getticketResult)
  (rows : list ((Z -> bool) * verdict)) : Prop :=
  forall currentTicket s ticket raw,
    ~ stale_signal currentTicket (ticketCache s) ->
    issued ErrCodeOK (issuer (calls s)) ticket raw ->
    observe (updateTicket ErrCodeOK issuer currentTicket s)
    = table_outcome rows raw.

(** ** Further notions *)

Definition is_request (e : effect) : bool :=
  match e with ERequest _ => true | _ => false end.

Definition is_response (e : effect) : bool :=
  match e with EResponse _ => true | _ => false end.

Definition is_refresh (ev : event) : bool :=
  match ev with Refresh _ => true | TickerC => false end.

(** How many of the daemon's inputs are requests, and how many are ticker
    firings. *)
Definition refreshes (evs : list event) : nat :=
  List.length (filter is_refresh evs).

Definition firings (evs : list event) : nat :=
  List.length (filter (fun ev => negb (is_refresh ev)) evs).

(** The period lies between the shortest and the longest buffered
    lifetime, and when a lifetime is cached the period is within two
    seconds of it. *)
Definition settled (s : state) : Prop :=
  51 * Second <= tickDuration s <= 31556352 * Second
  /\ (ticketCache s = zeroJsapiTicket
      \/ (51 <= ExpiresIn (ticketCache s) <= 31556352
          /\ Z.abs (tickDuration s - ExpiresIn (ticketCache s) * Second)
             <= 2 * Second)).

(** ** The goroutines

    The callers and the daemon as threads that take steps in any order.  A
    caller of [RefreshTicket] blocks on the request channel until the
    daemon's [select] takes its value, then on the response channel until
    the daemon sends.  The daemon is in its [select], inside
    [GetJSON], or blocked on the response channel.  Both channels are
    unbuffered, so a send and its receive are one step. *)

Inductive caller : Type :=
| CTicket
| CRefresh (currentTicket : string)
| CAwait
| CDone (ticket : string) (err : option error).

(** [DSending rslt d]: blocked on sending [rslt]; [d] is the new period
    when the ticker is to be restarted after the send. *)
Inductive daemon_state : Type :=
| DSelect
| DFetching (ev : event)
| DSending (rslt : refreshTicketResult) (newTickDuration : option Z)
| DPanicked.

(** [inflight] counts the calls of [GetJSON] that have begun and not yet
    returned. *)
Record system : Type := mkSystem {
  srv : state;
  daemon : daemon_state;
  inflight : nat;
  callers : list caller
}.

Inductive label : Type :=
| LTicket (cached : option string)
| LTake (currentTicket : string) (fetch : bool)
| LTick
| LFetched (ev : event) (k : nat)
| LGive (rslt : refreshTicketResult).

(** [ticker.Stop(); goto NEW_TICK_DURATION], where [time.NewTicker] may
    panic. *)
Definition restart (d : Z) (s : state) (n : nat) (cs : list caller) : system :=
  match retune d s with
  | Some s' => mkSystem s' DSelect n cs
  | None => mkSystem s DPanicked n cs
  end.

(** The request branch of the [select] after [updateTicket] has
    returned [(t, cached, err)]: what is to be sent, and whether the ticker
    is to be restarted after that. *)
Definition sending (t : jsapiTicket) (cached : bool) (err : option error)
  : daemon_state :=
  match err with
  | Some e => DSending (mkRslt "" (Some e)) None
  | None =>
      DSending (mkRslt (Ticket t) None)
               (if negb cached then Some (mul64 (ExpiresIn t) Second) else None)
  end.

(** The ticker branch of the [select] after [updateTicket("")] has
    returned [(t, _, err)]. *)
Definition after_tick (t : jsapiTicket) (err : option error) (s : state)
  (n : nat) (cs : list caller) : system :=
  match err with
  | Some _ => mkSystem s DSelect n cs
  | None =>
      let newTickDuration := mul64 (ExpiresIn t) Second in
      if abs (sub64 (tickDuration s) newTickDuration) >? mul64 Second 2
      then restart newTickDuration s n cs
      else mkSystem s DSelect n cs
  end.

(** After the send on the response channel. *)
Definition resume (newTickDuration : option Z) (s : state) (n : nat)
  (cs : list caller) : system :=
  match newTickDuration with
  | Some d => restart d s n cs
  | None => mkSystem s DSelect n cs
  end.

Section Goroutines.

Variable ErrCodeOK : Z.
Variable issuer : nat -> error + getticketResult.

(** One step of one goroutine.
    - [Ticket()] reads the cache and returns, or goes on as
      [RefreshTicket("")].
    - The daemon's [select] takes a caller's request; [updateTicket]
      returns at once from the cache, or begins [GetJSON].
    - The ticker fires and [updateTicket("")] begins [GetJSON].
    - [GetJSON] returns and [updateTicket] runs to its end.
    - The daemon's send meets the receive of a caller that waits. *)
Inductive step : system -> label -> system -> Prop :=
| step_Ticket_cached s d n l1 l2 :
    Ticket (ticketCache s) <> "" ->
    step (mkSystem s d n (l1 ++ CTicket :: l2))
         (LTicket (Some (Ticket (ticketCache s))))
         (mkSystem s d n (l1 ++ CDone (Ticket (ticketCache s)) None :: l2))
| step_Ticket_empty s d n l1 l2 :
    Ticket (ticketCache s) = "" ->
    step (mkSystem s d n (l1 ++ CTicket :: l2))
         (LTicket None)
         (mkSystem s d n (l1 ++ CRefresh "" :: l2))
| step_take_cached s n l1 l2 currentTicket t cached err s1 :
    stale_signal currentTicket (ticketCache s) ->
    updateTicket ErrCodeOK issuer currentTicket (emit (ERequest currentTicket) s)
    = (t, cached, err, s1) ->
    step (mkSystem s DSelect n (l1 ++ CRefresh currentTicket :: l2))
         (LTake currentTicket false)
         (mkSystem s1 (sending t cached err) n (l1 ++ CAwait :: l2))
| step_take_fetch s n l1 l2 currentTicket :
    ~ stale_signal currentTicket (ticketCache s) ->
    step (mkSystem s DSelect n (l1 ++ CRefresh currentTicket :: l2))
         (LTake currentTicket true)
         (mkSystem (emit (ERequest currentTicket) s)
                   (DFetching (Refresh currentTicket)) (S n)
                   (l1 ++ CAwait :: l2))
| step_tick s n cs :
    step (mkSystem s DSelect n cs) LTick
         (mkSystem s (DFetching TickerC) (S n) cs)
| step_fetched_request s n cs currentTicket t cached err s1 :
    updateTicket ErrCodeOK issuer currentTicket s = (t, cached, err, s1) ->
    step (mkSystem s (DFetching (Refresh currentTicket)) n cs)
         (LFetched (Refresh currentTicket) (calls s))
         (mkSystem s1 (sending t cached err) (pred n) cs)
| step_fetched_tick s n cs t cached err s1 :
    updateTicket ErrCodeOK issuer "" s = (t, cached, err, s1) ->
    step (mkSystem s (DFetching TickerC) n cs)
         (LFetched TickerC (calls s))
         (after_tick t err s1 (pred n) cs)
| step_give s n l1 l2 rslt d :
    step (mkSystem s (DSending rslt d) n (l1 ++ CAwait :: l2))
         (LGive rslt)
         (resume d (emit (EResponse rslt) s) n
                 (l1 ++ CDone (rslt_ticket rslt) (rslt_err rslt) :: l2)).

(** The steps taken from one state of the system to another, oldest
    first. *)
Inductive exec : system -> list label -> system -> Prop :=
| exec_nil c : exec c [] c
| exec_snoc c0 tr c l c' :
    exec c0 tr c -> step c l c' -> exec c0 (tr ++ [l]) c'.

End Goroutines.

(** The indices of the calls of [GetJSON] that returned, those among them
    made for a caller's request, and the replies sent, oldest first. *)
Definition all_fetched (tr : list label) : list nat :=
  flat_map (fun l => match l with LFetched _ k => [k] | _ => [] end) tr.

Definition fetched_by_request (tr : list label) : list nat :=
  flat_map (fun l => match l with LFetched (Refresh _) k => [k] | _ => [] end) tr.

Definition given (tr : list label) : list refreshTicketResult :=
  flat_map (fun l => match l with LGive r => [r] | _ => [] end) tr.

(** What the callers that have returned were told. *)
Definition done_results (cs : list caller) : list refreshTicketResult :=
  flat_map (fun c => match c with CDone t e => [mkRslt t e] | _ => [] end) cs.

Definition is_done (c : caller) : Prop :=
  match c with CDone _ _ => True | _ => False end.

(** A caller of [RefreshTicket("")], wherever it stands. *)
Definition refreshing (c : caller) : Prop :=
  c = CRefresh "" \/ c = CAwait \/ is_done c.

(** How many callers wait on the response channel. *)
Definition awaiting (cs : list caller) : nat :=
  List.length (filter (fun c => match c with CAwait => true | _ => false end) cs).

(** Whether the daemon is inside [GetJSON], whether it is at work for a
    caller, and the reply it is about to send. *)
Definition fetching (d : daemon_state) : nat :=
  match d with DFetching _ => 1 | _ => 0 end.

Definition serving (d : daemon_state) : nat :=
  match d with
  | DFetching (Refresh _) | DSending _ _ => 1
  | _ => 0
  end.

Definition pending (d : daemon_state) : list refreshTicketResult :=
  match d with DSending rslt _ => [rslt] | _ => [] end.

(** What holds at every moment while callers of [RefreshTicket("")] and
    the daemon run, [k0] calls of the issuer having gone before and [tr]
    being the steps taken: the calls are numbered on from [k0]; at most the
    one caller the daemon works for waits on the response channel; the
    replies sent, and the one about to be sent, are those that belong to
    the issuer's answers to the fetches made for requests, in that order;
    and the callers that returned hold the replies sent. *)
Definition refresh_inv (ErrCodeOK : Z) (issuer : nat -> error + getticketResult)
  (k0 : nat) (tr : list label) (c : system) : Prop :=
  calls (srv c) = (k0 + List.length (all_fetched tr))%nat
  /\ all_fetched tr = seq k0 (List.length (all_fetched tr))
  /\ Forall refreshing (callers c)
  /\ awaiting (callers c) = serving (daemon c)
  /\ (forall cur, daemon c = DFetching (Refresh cur) -> cur = "")
  /\ (given tr ++ pending (daemon c))%list
     = map (fun k => reply_of ErrCodeOK (issuer k)) (fetched_by_request tr)
  /\ Permutation (done_results (callers c)) (given tr).

(** The daemon is back in its [select] (or has panicked), with [k] calls
    of the issuer made, [n] of them in flight and the callers [cs]. *)
Definition at_rest (c : system) (k n : nat) (cs : list caller) : Prop :=
  calls (srv c) = k /\ inflight c = n /\ callers c = cs
  /\ (daemon c = DSelect \/ daemon c = DPanicked).

(** * Properties *)

Lemma wrap64_small (z : Z) : int64_range z -> wrap64 z = z.
Proof.
  unfold int64_range, wrap64. intros H.
  rewrite Z.mod_small; lia.
Qed.

Lemma nonempty_true (x : string) : nonempty x = true <-> x <> "".
Proof.
  unfold nonempty. rewrite negb_true_iff.
  destruct (String.eqb_spec x ""); split; congruence.
Qed.

Lemma stale_signal_bool (currentTicket : string) (cached : jsapiTicket) :
  nonempty currentTicket && nonempty (Ticket cached)
    && negb (currentTicket =? Ticket cached)%string = true
  <-> stale_signal currentTicket cached.
Proof.
  unfold stale_signal.
  rewrite !andb_true_iff, !nonempty_true, negb_true_iff.
  destruct (String.eqb_spec currentTicket (Ticket cached)); intuition congruence.
Qed.

Lemma stale_signal_dec (currentTicket : string) (cached : jsapiTicket) :
  {stale_signal currentTicket cached} + {~ stale_signal currentTicket cached}.
Proof.
  destruct (nonempty currentTicket && nonempty (Ticket cached)
            && negb (currentTicket =? Ticket cached)%string) eqn:E.
  - left. now apply stale_signal_bool.
  - right. intros H. apply stale_signal_bool in H. congruence.
Qed.

Lemma empty_never_stale (cached : jsapiTicket) : ~ stale_signal "" cached.
Proof. intros [H _]. now apply H. Qed.

Lemma margin_bounds (raw : Z) :
  60 < raw <= 31556952 ->
  51 <= raw - margin raw <= 31556352
  /\ sub64 raw (margin raw) = raw - margin raw.
Proof.
  intros H. unfold margin, sub64.
  destruct (Z.gtb_spec raw 3600), (Z.gtb_spec raw 1800), (Z.gtb_spec raw 300);
    (split; [lia | apply wrap64_small; unfold int64_range; lia]).
Qed.

Section Properties.

Variable ErrCodeOK : Z.
Variable issuer : nat -> error + getticketResult.

Ltac run_update :=
  unfold updateTicket, bind, getTicket, GetJSON, putTicket, ret, after_fetch.

(** [updateTicket] always ends in one of the three ways of
    [update_outcome]. *)
Lemma updateTicket_outcome (currentTicket : string) (s : state) :
  update_outcome ErrCodeOK issuer currentTicket s
    (fst (updateTicket ErrCodeOK issuer currentTicket s))
    (snd (updateTicket ErrCodeOK issuer currentTicket s)).
Proof.
  destruct (stale_signal_dec currentTicket (ticketCache s)) as [St | St].
  - pose proof (proj2 (stale_signal_bool _ _) St) as E.
    run_update. rewrite E. cbn. now constructor.
  - assert (E : nonempty currentTicket && nonempty (Ticket (ticketCache s))
                && negb (currentTicket =? Ticket (ticketCache s))%string = false).
    { destruct (_ && _) eqn:E'; [| reflexivity].
      apply stale_signal_bool in E'. contradiction. }
    run_update. rewrite E.
    destruct (issuer (calls s)) as [e | [code msg tk raw]] eqn:Ei; cbn.
    + replace e with (fetch_error ErrCodeOK (issuer (calls s)))
        by (now rewrite Ei).
      apply UFailed; [assumption | now rewrite Ei].
    + destruct (Z.eqb_spec code ErrCodeOK) as [-> | Hc]; cbn.
      * destruct (Z.gtb_spec raw 31556952) as [Hl | Hl].
        { replace (ErrorsNew _) with (fetch_error ErrCodeOK (issuer (calls s))).
          - apply UFailed; [assumption |]. rewrite Ei. cbn. lia.
          - rewrite Ei. cbn. rewrite Z.eqb_refl.
            destruct (Z.gtb_spec raw 31556952); [reflexivity | lia]. }
        assert (Hsmall : raw <= 60 \/ 60 < raw) by lia.
        destruct Hsmall as [Hs | Hs].
        { change (60 * 60) with 3600. change (60 * 30) with 1800.
          change (60 * 5) with 300.
          destruct (Z.gtb_spec raw 3600); [lia |].
          destruct (Z.gtb_spec raw 1800); [lia |].
          destruct (Z.gtb_spec raw 300); [lia |].
          destruct (Z.gtb_spec raw 60); [lia |].
          replace (ErrorsNew _) with (fetch_error ErrCodeOK (issuer (calls s))).
          - apply UFailed; [assumption |]. rewrite Ei. cbn. lia.
          - rewrite Ei. cbn. rewrite Z.eqb_refl.
            destruct (Z.gtb_spec raw 31556952); [lia | reflexivity]. }
        destruct (margin_bounds raw (conj Hs Hl)) as [_ Hm].
        assert (Hst : forall e, e = sub64 raw (margin raw) ->
                  update_outcome ErrCodeOK issuer currentTicket s
                    (mkTicket tk e, false, None)
                    (mkState (mkTicket tk e) (S (calls s)) (tickDuration s)
                       ((log s ++ [EGetJSON (calls s)]) ++ [EPutTicket (mkTicket tk e)]))).
        { intros e ->. rewrite Hm.
          apply (UStored ErrCodeOK issuer currentTicket s tk raw);
            [assumption | rewrite Ei; now exists msg | lia]. }
        change (60 * 60) with 3600. change (60 * 30) with 1800.
        change (60 * 5) with 300. change (60 * 10) with 600.
        unfold margin in Hst.
        destruct (Z.gtb_spec raw 3600); [now apply Hst |].
        destruct (Z.gtb_spec raw 1800); [now apply Hst |].
        destruct (Z.gtb_spec raw 300); [now apply Hst |].
        destruct (Z.gtb_spec raw 60); [now apply Hst | lia].
      * replace (CoreError code msg)
          with (fetch_error ErrCodeOK (issuer (calls s))).
        { apply UFailed; [assumption |]. rewrite Ei. cbn. now left. }
        rewrite Ei. cbn.
        destruct (Z.eqb_spec code ErrCodeOK); [contradiction | reflexivity].
Qed.


Lemma updateTicket_inv (currentTicket : string) (s : state)
  (r : jsapiTicket * bool * option error) (s' : state) :
  updateTicket ErrCodeOK issuer currentTicket s = (r, s') ->
  update_outcome ErrCodeOK issuer currentTicket s r s'.
Proof.
  intros E. pose proof (updateTicket_outcome currentTicket s) as H.
  now rewrite E in H.
Qed.

Lemma issued_not_failed (r : error + getticketResult) (ticket : string) (raw : Z) :
  issued ErrCodeOK r ticket raw -> 60 < raw <= 31556952 ->
  ~ fetch_failed ErrCodeOK r.
Proof.
  intros [msg ->] Hr. cbn. lia.
Qed.

Lemma issued_inj (r : error + getticketResult) (t1 t2 : string) (raw1 raw2 : Z) :
  issued ErrCodeOK r t1 raw1 -> issued ErrCodeOK r t2 raw2 ->
  t1 = t2 /\ raw1 = raw2.
Proof.
  intros [m1 ->] [m2 E]. injection E as _ -> ->. now split.
Qed.

Lemma updateTicket_stale (currentTicket : string) (s : state) :
  stale_signal currentTicket (ticketCache s) ->
  updateTicket ErrCodeOK issuer currentTicket s = (ticketCache s, true, None, s).
Proof.
  intros St.
  destruct (updateTicket ErrCodeOK issuer currentTicket s) as [r s'] eqn:E.
  apply updateTicket_inv in E. inversion E; subst; try contradiction.
  reflexivity.
Qed.

Lemma updateTicket_failed (currentTicket : string) (s : state) :
  ~ stale_signal currentTicket (ticketCache s) ->
  fetch_failed ErrCodeOK (issuer (calls s)) ->
  updateTicket ErrCodeOK issuer currentTicket s
  = (ticketCache s, false, Some (fetch_error ErrCodeOK (issuer (calls s))),
     after_fetch s zeroJsapiTicket).
Proof.
  intros St Hf.
  destruct (updateTicket ErrCodeOK issuer currentTicket s) as [r s'] eqn:E.
  apply updateTicket_inv in E. inversion E; subst; try contradiction.
  - reflexivity.
  - exfalso. eapply issued_not_failed; eassumption.
Qed.

Lemma updateTicket_stored (currentTicket : string) (s : state)
  (ticket : string) (raw : Z) :
  ~ stale_signal currentTicket (ticketCache s) ->
  issued ErrCodeOK (issuer (calls s)) ticket raw ->
  60 < raw <= 31556952 ->
  updateTicket ErrCodeOK issuer currentTicket s
  = (mkTicket ticket (raw - margin raw), false, None,
     after_fetch s (mkTicket ticket (raw - margin raw))).
Proof.
  intros St Hi Hr.
  destruct (updateTicket ErrCodeOK issuer currentTicket s) as [r s'] eqn:E.
  apply updateTicket_inv in E. inversion E; subst; try contradiction.
  - exfalso. eapply issued_not_failed; eassumption.
  - match goal with
    | H : issued _ _ ?t ?r |- _ =>
        destruct (issued_inj _ _ _ _ _ Hi H) as [<- <-]
    end.
    reflexivity.
Qed.

(** A reply that reports success with a lifetime outside the accepted
    bounds is a failed fetch, reported with one of the two messages. *)
Lemma issued_out_of_bounds (r : error + getticketResult) (ticket : string) (raw : Z) :
  issued ErrCodeOK r ticket raw ->
  (raw <= 60 ->
     fetch_failed ErrCodeOK r
     /\ fetch_error ErrCodeOK r
        = ErrorsNew ("expires_in too small: " ++ FormatInt raw))
  /\ (raw > 31556952 ->
     fetch_failed ErrCodeOK r
     /\ fetch_error ErrCodeOK r
        = ErrorsNew ("expires_in too large: " ++ FormatInt raw)).
Proof.
  intros [msg ->]. cbn. rewrite Z.eqb_refl.
  split; intros H; (split; [lia |]);
    destruct (Z.gtb_spec raw 31556952); (reflexivity || lia).
Qed.

(** C1. With a reply of the issuer that reports success and no
    short-circuit, [updateTicket] buffers the raw lifetime: 3601 is stored
    as 3001, 1801 as 1501, 301 as 241 and 61 as 51.  A raw lifetime of 60 or
    less fails with the message "expires_in too small", one above 31556952
    with "expires_in too large" (each message followed by ": " and the raw
    value in decimal); in both cases the empty ticket is stored and an error
    is returned. *)
Theorem updateTicket_buffer_table
  (currentTicket : string) (s : state) (ticket : string) (raw : Z)
  (t : jsapiTicket) (cached : bool) (err : option error) (s' : state) :
  ~ stale_signal currentTicket (ticketCache s) ->
  issued ErrCodeOK (issuer (calls s)) ticket raw ->
  updateTicket ErrCodeOK issuer currentTicket s = (t, cached, err, s') ->
  (raw = 3601 -> err = None /\ t = mkTicket ticket 3001 /\ ticketCache s' = t)
  /\ (raw = 1801 -> err = None /\ t = mkTicket ticket 1501 /\ ticketCache s' = t)
  /\ (raw = 301 -> err = None /\ t = mkTicket ticket 241 /\ ticketCache s' = t)
  /\ (raw = 61 -> err = None /\ t = mkTicket ticket 51 /\ ticketCache s' = t)
  /\ (raw <= 60 ->
      err = Some (ErrorsNew ("expires_in too small" ++ ": " ++ FormatInt raw))
      /\ ticketCache s' = zeroJsapiTicket)
  /\ (raw > 31556952 ->
      err = Some (ErrorsNew ("expires_in too large" ++ ": " ++ FormatInt raw))
      /\ ticketCache s' = zeroJsapiTicket).
Proof.
  intros St Hi E.
  assert (Hok : forall b, 60 < raw <= 31556952 -> raw - margin raw = b ->
                  err = None /\ t = mkTicket ticket b /\ ticketCache s' = t).
  { intros b Hr <-. rewrite (updateTicket_stored _ _ _ _ St Hi Hr) in E.
    injection E as <- <- <- <-. auto. }
  assert (Hbad : fetch_failed ErrCodeOK (issuer (calls s)) ->
                 err = Some (fetch_error ErrCodeOK (issuer (calls s)))
                 /\ ticketCache s' = zeroJsapiTicket).
  { intros Hf. rewrite (updateTicket_failed _ _ St Hf) in E.
    injection E as <- <- <- <-. auto. }
  destruct (issued_out_of_bounds _ _ _ Hi) as [Hsmall Hlarge].
  split; [| split; [| split; [| split; [| split]]]];
    try (intros Hv; apply Hok; [lia | now rewrite Hv]).
  - intros H. destruct (Hsmall H) as [Hf He].
    change ("expires_in too small" ++ ": " ++ FormatInt raw)%string
      with ("expires_in too small: " ++ FormatInt raw)%string.
    rewrite <- He. now apply Hbad.
  - intros H. destruct (Hlarge H) as [Hf He].
    change ("expires_in too large" ++ ": " ++ FormatInt raw)%string
      with ("expires_in too large: " ++ FormatInt raw)%string.
    rewrite <- He. now apply Hbad.
Qed.


Lemma buffered_duration (e : Z) :
  51 <= e <= 31556352 ->
  mul64 e Second = e * Second /\ 0 < e * Second < 2 ^ 63.
Proof.
  intros H. unfold mul64, Second.
  split; [apply wrap64_small; unfold int64_range |]; lia.
Qed.

Lemma abs_sub64 (x y : Z) :
  0 < x < 2 ^ 63 -> 0 < y < 2 ^ 63 -> abs (sub64 x y) = Z.abs (x - y).
Proof.
  intros Hx Hy. unfold abs, sub64, neg64.
  rewrite (wrap64_small (x - y)) by (unfold int64_range; lia).
  destruct (Z.geb_spec (x - y) 0).
  - lia.
  - rewrite wrap64_small by (unfold int64_range; lia). lia.
Qed.

Lemma retune_positive (d : Z) (s : state) :
  0 < d ->
  retune d s
  = Some (mkState (ticketCache s) (calls s) d
            ((log s ++ [ETickerStop]) ++ [ENewTicker d])).
Proof.
  intros H. unfold retune, NewTicker, emit. cbn.
  destruct (Z.leb_spec d 0); [lia | reflexivity].
Qed.

Lemma daemon_refresh_stale (currentTicket : string) (s : state) :
  stale_signal currentTicket (ticketCache s) ->
  daemon_step ErrCodeOK issuer (Refresh currentTicket) s
  = Some (Some (mkRslt (Ticket (ticketCache s)) None),
          emit (EResponse (mkRslt (Ticket (ticketCache s)) None))
               (emit (ERequest currentTicket) s)).
Proof.
  intros St. unfold daemon_step.
  rewrite updateTicket_stale by exact St. reflexivity.
Qed.

Lemma daemon_refresh_failed (currentTicket : string) (s : state) :
  ~ stale_signal currentTicket (ticketCache s) ->
  fetch_failed ErrCodeOK (issuer (calls s)) ->
  daemon_step ErrCodeOK issuer (Refresh currentTicket) s
  = Some (Some (mkRslt "" (Some (fetch_error ErrCodeOK (issuer (calls s))))),
          emit (EResponse (mkRslt "" (Some (fetch_error ErrCodeOK (issuer (calls s))))))
               (after_fetch (emit (ERequest currentTicket) s) zeroJsapiTicket)).
Proof.
  intros St Hf. unfold daemon_step.
  rewrite updateTicket_failed by assumption. reflexivity.
Qed.

Lemma daemon_refresh_stored (currentTicket : string) (s : state)
  (ticket : string) (raw : Z) :
  ~ stale_signal currentTicket (ticketCache s) ->
  issued ErrCodeOK (issuer (calls s)) ticket raw ->
  60 < raw <= 31556952 ->
  daemon_step ErrCodeOK issuer (Refresh currentTicket) s
  = Some (Some (mkRslt ticket None),
          mkState (mkTicket ticket (raw - margin raw)) (S (calls s))
            ((raw - margin raw) * Second)
            (log s ++ [ERequest currentTicket; EGetJSON (calls s);
                       EPutTicket (mkTicket ticket (raw - margin raw));
                       EResponse (mkRslt ticket None);
                       ETickerStop;
                       ENewTicker ((raw - margin raw) * Second)])).
Proof.
  intros St Hi Hr. unfold daemon_step.
  rewrite (updateTicket_stored currentTicket _ ticket raw) by assumption.
  destruct (margin_bounds raw Hr) as [Hb _].
  destruct (buffered_duration _ Hb) as [Hm Hp].
  cbn [negb ExpiresIn Ticket]. rewrite Hm, retune_positive by lia.
  cbn. now rewrite <- !app_assoc.
Qed.

Lemma daemon_tick_failed (s : state) :
  fetch_failed ErrCodeOK (issuer (calls s)) ->
  daemon_step ErrCodeOK issuer TickerC s
  = Some (None, after_fetch s zeroJsapiTicket).
Proof.
  intros Hf. unfold daemon_step.
  rewrite updateTicket_failed by (assumption || apply empty_never_stale).
  reflexivity.
Qed.

Lemma daemon_tick_stored (s : state) (ticket : string) (raw : Z) :
  period_ok s ->
  issued ErrCodeOK (issuer (calls s)) ticket raw ->
  60 < raw <= 31556952 ->
  daemon_step ErrCodeOK issuer TickerC s
  = Some (None,
          if Z.abs (tickDuration s - (raw - margin raw) * Second) >? 2 * Second
          then mkState (mkTicket ticket (raw - margin raw)) (S (calls s))
                 ((raw - margin raw) * Second)
                 (log s ++ [EGetJSON (calls s);
                            EPutTicket (mkTicket ticket (raw - margin raw));
                            ETickerStop;
                            ENewTicker ((raw - margin raw) * Second)])
          else after_fetch s (mkTicket ticket (raw - margin raw))).
Proof.
  intros Hp Hi Hr. unfold daemon_step.
  rewrite (updateTicket_stored "" _ ticket raw)
    by (assumption || apply empty_never_stale).
  destruct (margin_bounds raw Hr) as [Hb _].
  destruct (buffered_duration _ Hb) as [Hm Hd].
  cbn [ExpiresIn Ticket after_fetch tickDuration]. rewrite Hm.
  rewrite abs_sub64 by (assumption || exact Hd).
  change (mul64 Second 2) with (2 * Second).
  destruct (Z.abs _ >? 2 * Second); [| reflexivity].
  rewrite retune_positive by lia.
  cbn. now rewrite <- !app_assoc.
Qed.

(** Every reply of the issuer either makes the fetch fail or grants a
    ticket with a lifetime within the accepted bounds. *)
Lemma fetch_failed_or_issued (r : error + getticketResult) :
  fetch_failed ErrCodeOK r
  \/ exists ticket raw, issued ErrCodeOK r ticket raw /\ 60 < raw <= 31556952.
Proof.
  destruct r as [e | [code msg tk raw]]; cbn; [now left |].
  destruct (Z.eq_dec code ErrCodeOK) as [-> | Hc]; [| now left; left].
  destruct (Z_le_gt_dec raw 60); [left; lia |].
  destruct (Z_le_gt_dec raw 31556952); [| left; lia].
  right. exists tk, raw. split; [now exists msg | lia].
Qed.


Lemma count_app (p : effect -> bool) (l l' : list effect) :
  count p (l ++ l') = (count p l + count p l')%nat.
Proof.
  unfold count. now rewrite filter_app, length_app.
Qed.

(** A ticker firing always reaches the issuer. *)
Lemma daemon_tick_fetches (s : state) :
  exists s', daemon_step ErrCodeOK issuer TickerC s = Some (None, s')
             /\ calls s' = S (calls s).
Proof.
  destruct (fetch_failed_or_issued (issuer (calls s)))
    as [Hf | (tk & raw & Hi & Hr)].
  - rewrite daemon_tick_failed by assumption. eexists. split; reflexivity.
  - unfold daemon_step.
    rewrite (updateTicket_stored "" _ tk raw)
      by (assumption || apply empty_never_stale).
    destruct (margin_bounds raw Hr) as [Hb _].
    destruct (buffered_duration _ Hb) as [Hm Hd].
    cbn [ExpiresIn]. rewrite Hm.
    destruct (abs _ >? _).
    + rewrite retune_positive by lia. eexists. split; reflexivity.
    + eexists. split; reflexivity.
Qed.

(** C2. [updateTicket] reports [cached] exactly when the caller's ticket
    and the cached ticket are both non-empty and differ.  Then it returns
    the cached ticket without an error and leaves the whole state as it
    was (no call of the issuer), and the daemon answers the request with
    the cached ticket and keeps its period and its ticker.  In every other
    case, and at every ticker firing, one call of the issuer is made. *)
Theorem refresh_decision
  (currentTicket : string) (s : state)
  (t : jsapiTicket) (cached : bool) (err : option error) (s' : state) :
  updateTicket ErrCodeOK issuer currentTicket s = (t, cached, err, s') ->
  (cached = true <-> stale_signal currentTicket (ticketCache s))
  /\ (stale_signal currentTicket (ticketCache s) ->
      t = ticketCache s /\ err = None /\ s' = s
      /\ exists s2,
           daemon_step ErrCodeOK issuer (Refresh currentTicket) s
           = Some (Some (mkRslt (Ticket (ticketCache s)) None), s2)
           /\ calls s2 = calls s
           /\ tickDuration s2 = tickDuration s
           /\ count is_fetch (log s2) = count is_fetch (log s)
           /\ count is_ticker_effect (log s2) = count is_ticker_effect (log s))
  /\ (currentTicket = "" \/ Ticket (ticketCache s) = ""
      \/ currentTicket = Ticket (ticketCache s) ->
      cached = false
      /\ calls s' = S (calls s)
      /\ log s' = (log s ++ [EGetJSON (calls s); EPutTicket (ticketCache s')])%list)
  /\ (exists s2,
        daemon_step ErrCodeOK issuer TickerC s = Some (None, s2)
        /\ calls s2 = S (calls s)).
Proof.
  intros E. apply updateTicket_inv in E.
  split; [| split; [| split]].
  - inversion E; subst; split; intros H; (congruence || contradiction || assumption).
  - intros St. inversion E; subst; try contradiction.
    repeat split.
    rewrite daemon_refresh_stale by assumption.
    eexists. split; [reflexivity |].
    unfold emit; cbn [log calls tickDuration].
    rewrite <- !app_assoc, !count_app. cbn. repeat split; lia.
  - intros H.
    assert (St : ~ stale_signal currentTicket (ticketCache s)).
    { intros (H1 & H2 & H3). destruct H as [H | [H | H]]; contradiction. }
    inversion E; subst; try contradiction;
      cbn; now rewrite <- app_assoc.
  - apply daemon_tick_fetches.
Qed.

(** C3. A call of [updateTicket] that returns an error made a fetch that
    failed (the client's call failed, the issuer reported an error, or the
    lifetime was out of bounds), and it has stored the empty ticket as its
    last act, so that the next [Ticket()] does not answer from the cache but
    asks for a refresh.  Conversely every failed fetch returns an error, also
    when the ticker started it. *)
Theorem failed_fetch_clears_cache (currentTicket : string) (s : state) :
  (forall t cached e s',
     updateTicket ErrCodeOK issuer currentTicket s = (t, cached, Some e, s') ->
     ~ stale_signal currentTicket (ticketCache s)
     /\ fetch_failed ErrCodeOK (issuer (calls s))
     /\ e = fetch_error ErrCodeOK (issuer (calls s))
     /\ ticketCache s' = zeroJsapiTicket
     /\ log s' = (log s ++ [EGetJSON (calls s); EPutTicket zeroJsapiTicket])%list
     /\ srvTicket ErrCodeOK issuer s' = RefreshTicket ErrCodeOK issuer "" s')
  /\ (~ stale_signal currentTicket (ticketCache s) ->
      fetch_failed ErrCodeOK (issuer (calls s)) ->
      exists t e s',
        updateTicket ErrCodeOK issuer currentTicket s = (t, false, Some e, s')
        /\ ticketCache s' = zeroJsapiTicket)
  /\ (fetch_failed ErrCodeOK (issuer (calls s)) ->
      exists s',
        daemon_step ErrCodeOK issuer TickerC s = Some (None, s')
        /\ ticketCache s' = zeroJsapiTicket
        /\ srvTicket ErrCodeOK issuer s' = RefreshTicket ErrCodeOK issuer "" s').
Proof.
  split; [| split].
  - intros t cached e s' E. apply updateTicket_inv in E.
    inversion E; subst.
    repeat split; try assumption.
    cbn. now rewrite <- app_assoc.
  - intros St Hf. rewrite updateTicket_failed by assumption.
    do 3 eexists. split; reflexivity.
  - intros Hf. rewrite daemon_tick_failed by assumption.
    eexists. repeat split.
Qed.

(** C5. [Ticket()] with a non-empty cached ticket returns that ticket and
    no error and leaves the state as it was: nothing is sent to the daemon
    and the issuer is not called.  With an empty cached ticket it is
    [RefreshTicket("")]. *)
Theorem Ticket_reads_then_refreshes (s : state) :
  (Ticket (ticketCache s) <> "" ->
   srvTicket ErrCodeOK issuer s = Some ((Ticket (ticketCache s), None), s))
  /\ (Ticket (ticketCache s) = "" ->
      srvTicket ErrCodeOK issuer s = RefreshTicket ErrCodeOK issuer "" s).
Proof.
  unfold srvTicket, getTicket. cbn [fst].
  split; intros H.
  - apply nonempty_true in H. now rewrite H.
  - now rewrite H.
Qed.

(** C8. The fast path of [Ticket()] looks at the ticket string only: with
    a non-empty cached ticket it returns it whatever [ExpiresIn] holds,
    zero and negative values included, and the state is left as it was. *)
Theorem Ticket_ignores_expiry
  (ticket : string) (expiresIn : Z) (n : nat) (d : Z) (l : list effect) :
  ticket <> "" ->
  srvTicket ErrCodeOK issuer (mkState (mkTicket ticket expiresIn) n d l)
  = Some ((ticket, None), mkState (mkTicket ticket expiresIn) n d l).
Proof.
  intros H. unfold srvTicket, getTicket. cbn.
  apply nonempty_true in H. now rewrite H.
Qed.

(** C9. A call of [updateTicket] that reports [cached] wrote nothing: the
    cached ticket, both its string and its lifetime, and the whole state
    are as before, and no [putTicket] was made. *)
Theorem short_circuit_writes_nothing
  (currentTicket : string) (s : state)
  (t : jsapiTicket) (err : option error) (s' : state) :
  updateTicket ErrCodeOK issuer currentTicket s = (t, true, err, s') ->
  stale_signal currentTicket (ticketCache s)
  /\ Ticket (ticketCache s') = Ticket (ticketCache s)
  /\ ExpiresIn (ticketCache s') = ExpiresIn (ticketCache s)
  /\ count is_put (log s') = count is_put (log s)
  /\ s' = s.
Proof.
  intros E. apply updateTicket_inv in E. inversion E; subst.
  split; [assumption | repeat split].
Qed.

(** C10. After a call of [updateTicket] that succeeded without the
    short-circuit, the lifetime returned and stored lies between 51 and
    31556352, so the period the daemon derives from it is a positive
    [time.Duration] that did not wrap, and [time.NewTicker] accepts it. *)
Theorem buffered_expiry_range
  (currentTicket : string) (s : state) (t : jsapiTicket) (s' : state) :
  updateTicket ErrCodeOK issuer currentTicket s = (t, false, None, s') ->
  51 <= ExpiresIn t <= 31556352
  /\ ticketCache s' = t
  /\ mul64 (ExpiresIn t) Second = ExpiresIn t * Second
  /\ 0 < mul64 (ExpiresIn t) Second
  /\ exists s2, retune (mul64 (ExpiresIn t) Second) s' = Some s2
                /\ tickDuration s2 = ExpiresIn t * Second.
Proof.
  intros E. apply updateTicket_inv in E. inversion E; subst.
  match goal with H : 60 < _ <= _ |- _ =>
    destruct (margin_bounds _ H) as [Hb _] end.
  destruct (buffered_duration _ Hb) as [Hm Hd].
  cbn [ExpiresIn]. rewrite Hm.
  repeat split; try lia.
  rewrite retune_positive by lia. eexists. split; reflexivity.
Qed.


(** C4. How the daemon retunes its ticker.  A caller's request that led
    to a successful fetch sets the period to the buffered lifetime just
    stored and restarts the ticker, whatever the period was.  A ticker
    firing that led to a successful fetch does so only when that lifetime
    and the period differ by more than two seconds, and otherwise keeps
    period and ticker.  A request or firing whose fetch failed, and a
    request that was short-circuited, keep period and ticker. *)
Theorem retune_policy (s : state) :
  (forall currentTicket ticket raw,
     ~ stale_signal currentTicket (ticketCache s) ->
     issued ErrCodeOK (issuer (calls s)) ticket raw ->
     60 < raw <= 31556952 ->
     exists s',
       daemon_step ErrCodeOK issuer (Refresh currentTicket) s
       = Some (Some (mkRslt ticket None), s')
       /\ ticketCache s' = mkTicket ticket (raw - margin raw)
       /\ tickDuration s' = ExpiresIn (ticketCache s') * Second
       /\ count is_ticker_effect (log s')
          = (2 + count is_ticker_effect (log s))%nat)
  /\ (forall ticket raw,
        period_ok s ->
        issued ErrCodeOK (issuer (calls s)) ticket raw ->
        60 < raw <= 31556952 ->
        exists s',
          daemon_step ErrCodeOK issuer TickerC s = Some (None, s')
          /\ ticketCache s' = mkTicket ticket (raw - margin raw)
          /\ (Z.abs (tickDuration s - ExpiresIn (ticketCache s') * Second)
              > 2 * Second ->
              tickDuration s' = ExpiresIn (ticketCache s') * Second
              /\ count is_ticker_effect (log s')
                 = (2 + count is_ticker_effect (log s))%nat)
          /\ (Z.abs (tickDuration s - ExpiresIn (ticketCache s') * Second)
              <= 2 * Second ->
              tickDuration s' = tickDuration s
              /\ count is_ticker_effect (log s')
                 = count is_ticker_effect (log s)))
  /\ (forall ev,
        match ev with
        | Refresh currentTicket =>
            stale_signal currentTicket (ticketCache s)
            \/ fetch_failed ErrCodeOK (issuer (calls s))
        | TickerC => fetch_failed ErrCodeOK (issuer (calls s))
        end ->
        exists r s',
          daemon_step ErrCodeOK issuer ev s = Some (r, s')
          /\ tickDuration s' = tickDuration s
          /\ count is_ticker_effect (log s')
             = count is_ticker_effect (log s)).
Proof.
  split; [| split].
  - intros cur tk raw St Hi Hr.
    rewrite (daemon_refresh_stored cur s tk raw) by assumption.
    eexists. split; [reflexivity |]. cbn [ticketCache tickDuration ExpiresIn log].
    repeat split. rewrite count_app. cbn. lia.
  - intros tk raw Hp Hi Hr.
    rewrite (daemon_tick_stored s tk raw) by assumption.
    eexists. split; [reflexivity |].
    destruct (Z.gtb_spec (Z.abs (tickDuration s - (raw - margin raw) * Second))
                (2 * Second)) as [Hgt | Hle];
      cbn [ticketCache tickDuration ExpiresIn log after_fetch];
      (split; [reflexivity |]); split; intros H; try lia.
    + split; [reflexivity |]. rewrite count_app. cbn. lia.
    + split; [reflexivity |]. rewrite <- app_assoc, count_app. cbn. lia.
  - intros [cur |] H.
    + destruct (stale_signal_dec cur (ticketCache s)) as [St | St].
      * rewrite daemon_refresh_stale by assumption.
        do 2 eexists. split; [reflexivity |].
        unfold emit; cbn [log calls tickDuration].
        rewrite <- !app_assoc, !count_app. cbn. split; [reflexivity | lia].
      * destruct H as [H | H]; [contradiction |].
        rewrite daemon_refresh_failed by assumption.
        do 2 eexists. split; [reflexivity |].
        unfold emit, after_fetch; cbn [log calls tickDuration].
        rewrite <- !app_assoc, !count_app. cbn. split; [reflexivity | lia].
    + rewrite daemon_tick_failed by assumption.
      do 2 eexists. split; [reflexivity |].
      unfold after_fetch; cbn [log calls tickDuration].
      rewrite <- !app_assoc, !count_app. cbn. split; [reflexivity | lia].
Qed.


Lemma observe_too_small (r : jsapiTicket * bool) (x : string) (s : state) :
  observe (r, Some (ErrorsNew ("expires_in too small: " ++ x)), s) = TooSmall.
Proof. now destruct r. Qed.

Lemma observe_too_large (r : jsapiTicket * bool) (x : string) (s : state) :
  observe (r, Some (ErrorsNew ("expires_in too large: " ++ x)), s) = TooLarge.
Proof. now destruct r. Qed.

Ltac zcases :=
  repeat (match goal with
          | |- context [?a >? ?b] => destruct (Z.gtb_spec a b)
          | |- context [?a <=? ?b] => destruct (Z.leb_spec a b)
          | |- context [?a <? ?b] => destruct (Z.ltb_spec a b)
          end; cbn [andb]; try lia).

Lemma switch_table_outcome (raw : Z) :
  table_outcome switch_table raw
  = if raw >? 31556952 then TooLarge
    else if raw <=? 60 then TooSmall
    else Buffered (raw - margin raw).
Proof.
  unfold table_outcome, switch_table, first_match, in_range, margin.
  zcases; reflexivity.
Qed.

(** C6, as the code has it.  The outcome of a fetch that the issuer
    answers with success is the one of the first matching row when the row
    "> 31556952" is read first and the others follow in the listed order,
    a row "lo-hi" holding the raw values above [lo] and up to [hi]. *)
Theorem switch_follows_switch_table
  (currentTicket : string) (s : state) (ticket : string) (raw : Z) :
  ~ stale_signal currentTicket (ticketCache s) ->
  issued ErrCodeOK (issuer (calls s)) ticket raw ->
  observe (updateTicket ErrCodeOK issuer currentTicket s)
  = table_outcome switch_table raw.
Proof.
  intros St Hi. rewrite switch_table_outcome.
  destruct (issued_out_of_bounds _ _ _ Hi) as [Hsmall Hlarge].
  destruct (Z.gtb_spec raw 31556952) as [Hl | Hl].
  - destruct Hlarge as [Hf He]; [lia |].
    rewrite updateTicket_failed, He by assumption.
    apply observe_too_large.
  - destruct (Z.leb_spec raw 60) as [Hs | Hs].
    + destruct (Hsmall Hs) as [Hf He].
      rewrite updateTicket_failed, He by assumption.
      apply observe_too_small.
    + rewrite (updateTicket_stored _ _ ticket raw) by (assumption || lia).
      reflexivity.
Qed.

Lemma fetches_serial_app (l l' : list effect) (busy : bool) :
  fetches_serial busy (l ++ l')
  = match fetches_serial busy l with
    | Some busy' => fetches_serial busy' l'
    | None => None
    end.
Proof.
  revert busy. induction l as [| e l IH]; intros busy; [reflexivity |].
  destruct e; cbn; try apply IH.
  destruct busy; [reflexivity | apply IH].
Qed.

(** The daemon never stops on a ticker it cannot start; its period
    stays a positive [int64], and in its log no fetch begins while another
    is in flight. *)
Lemma daemon_step_total (ev : event) (s : state) :
  period_ok s ->
  fetches_serial false (log s) = Some false ->
  exists r s',
    daemon_step ErrCodeOK issuer ev s = Some (r, s')
    /\ period_ok s'
    /\ fetches_serial false (log s') = Some false.
Proof.
  intros Hp Hs. destruct ev as [cur |].
  - destruct (stale_signal_dec cur (ticketCache s)) as [St | St].
    + rewrite daemon_refresh_stale by assumption. do 2 eexists.
      split; [reflexivity | split; [exact Hp |]].
      unfold emit; cbn [log]. rewrite <- !app_assoc, fetches_serial_app, Hs.
      reflexivity.
    + destruct (fetch_failed_or_issued (issuer (calls s)))
        as [Hf | (tk & raw & Hi & Hr)].
      * rewrite daemon_refresh_failed by assumption. do 2 eexists.
        split; [reflexivity | split; [exact Hp |]].
        unfold emit, after_fetch; cbn [log calls].
        rewrite <- !app_assoc, fetches_serial_app, Hs. reflexivity.
      * rewrite (daemon_refresh_stored cur s tk raw) by assumption.
        do 2 eexists. split; [reflexivity |].
        destruct (margin_bounds raw Hr) as [Hb _]. split.
        { apply (buffered_duration _ Hb). }
        cbn [log]. rewrite fetches_serial_app, Hs. reflexivity.
  - destruct (fetch_failed_or_issued (issuer (calls s)))
      as [Hf | (tk & raw & Hi & Hr)].
    + rewrite daemon_tick_failed by assumption. do 2 eexists.
      split; [reflexivity | split; [exact Hp |]].
      unfold after_fetch; cbn [log].
      rewrite <- !app_assoc, fetches_serial_app, Hs. reflexivity.
    + rewrite (daemon_tick_stored s tk raw) by assumption.
      do 2 eexists. split; [reflexivity |].
      destruct (margin_bounds raw Hr) as [Hb _].
      destruct (_ >? _); split;
        try (apply (buffered_duration _ Hb)); try exact Hp;
        unfold after_fetch; cbn [log];
        rewrite <- ?app_assoc, fetches_serial_app, Hs; reflexivity.
Qed.

(** The same over any sequence of requests and ticker firings. *)
Lemma daemon_run_total (evs : list event) (s : state) :
  period_ok s ->
  fetches_serial false (log s) = Some false ->
  exists rs s',
    daemon_run ErrCodeOK issuer evs s = Some (rs, s')
    /\ period_ok s'
    /\ fetches_serial false (log s') = Some false.
Proof.
  revert s. induction evs as [| ev evs IH]; intros s Hp Hs.
  - exists [], s. split; [reflexivity | split; assumption].
  - destruct (daemon_step_total ev s Hp Hs) as (r & s1 & E1 & Hp1 & Hs1).
    destruct (IH s1 Hp1 Hs1) as (rs & s2 & E2 & Hp2 & Hs2).
    cbn [daemon_run]. rewrite E1, E2. do 2 eexists.
    split; [reflexivity | split; assumption].
Qed.

Lemma reply_of_failed (r : error + getticketResult) :
  fetch_failed ErrCodeOK r ->
  reply_of ErrCodeOK r = mkRslt "" (Some (fetch_error ErrCodeOK r)).
Proof.
  destruct r as [e | [code msg tk raw]]; cbn; [reflexivity |].
  intros H.
  destruct (Z.eqb_spec code ErrCodeOK), (Z.ltb_spec 60 raw),
    (Z.leb_spec raw 31556952); cbn; (reflexivity || lia).
Qed.

Lemma reply_of_issued (r : error + getticketResult) (ticket : string) (raw : Z) :
  issued ErrCodeOK r ticket raw -> 60 < raw <= 31556952 ->
  reply_of ErrCodeOK r = mkRslt ticket None.
Proof.
  intros [msg ->] Hr. cbn. rewrite Z.eqb_refl.
  destruct (Z.ltb_spec 60 raw), (Z.leb_spec raw 31556952); cbn;
    (reflexivity || lia).
Qed.

(** What [updateTicket("")] leaves the daemon to send: the reply that
    belongs to the issuer's answer, after one more call. *)
Lemma sending_after_fetch (s : state)
  (t : jsapiTicket) (cached : bool) (err : option error) (s1 : state) :
  updateTicket ErrCodeOK issuer "" s = (t, cached, err, s1) ->
  calls s1 = S (calls s)
  /\ exists d, sending t cached err
               = DSending (reply_of ErrCodeOK (issuer (calls s))) d.
Proof.
  intros E. apply updateTicket_inv in E. inversion E; subst.
  - exfalso. eapply empty_never_stale. eassumption.
  - split; [reflexivity |]. rewrite reply_of_failed by assumption.
    eexists. reflexivity.
  - split; [reflexivity |].
    rewrite (reply_of_issued _ ticket raw) by assumption.
    eexists. reflexivity.
Qed.

Lemma restart_at_rest (d : Z) (s : state) (n : nat) (cs : list caller) :
  at_rest (restart d s n cs) (calls s) n cs.
Proof.
  unfold restart, retune, NewTicker, emit, at_rest. cbn.
  destruct (d <=? 0); cbn; auto.
Qed.

Lemma resume_at_rest (d : option Z) (s : state) (n : nat) (cs : list caller) :
  at_rest (resume d s n cs) (calls s) n cs.
Proof.
  destruct d as [d |]; [apply restart_at_rest |].
  unfold at_rest. cbn. auto.
Qed.

Lemma after_tick_at_rest
  (t : jsapiTicket) (err : option error) (s : state) (n : nat) (cs : list caller) :
  at_rest (after_tick t err s n cs) (calls s) n cs.
Proof.
  unfold after_tick. destruct err; [unfold at_rest; cbn; auto |].
  destruct (_ >? _); [apply restart_at_rest | unfold at_rest; cbn; auto].
Qed.

Lemma at_rest_idle (c : system) (k n : nat) (cs : list caller) :
  at_rest c k n cs ->
  fetching (daemon c) = 0%nat /\ serving (daemon c) = 0%nat
  /\ pending (daemon c) = [].
Proof.
  intros (_ & _ & _ & [-> | ->]); now repeat split.
Qed.

Lemma sending_busy (t : jsapiTicket) (cached : bool) (err : option error) :
  fetching (sending t cached err) = 0%nat
  /\ serving (sending t cached err) = 1%nat.
Proof. unfold sending. destruct err; now split. Qed.

Lemma step_inflight (c : system) (l : label) (c' : system) :
  step ErrCodeOK issuer c l c' ->
  inflight c = fetching (daemon c) ->
  inflight c' = fetching (daemon c').
Proof.
  intros Hst H. inversion Hst; subst; cbn [inflight daemon fetching] in *;
    try congruence.
  - now rewrite (proj1 (sending_busy _ _ _)).
  - rewrite (proj1 (sending_busy _ _ _)). now rewrite H.
  - subst n.
    destruct (after_tick_at_rest t err s1 (pred 1) cs) as (_ & Hn & _ & Hd).
    rewrite Hn. destruct Hd as [-> | ->]; reflexivity.
  - subst n.
    match goal with
    | |- inflight (resume ?d ?s ?n ?cs) = _ =>
        destruct (resume_at_rest d s n cs) as (_ & Hn & _ & Hd)
    end.
    rewrite Hn. destruct Hd as [-> | ->]; reflexivity.
Qed.

(** The counter [inflight] is one while the daemon is inside [GetJSON]
    and zero otherwise, whatever the callers do. *)
Lemma inflight_follows_daemon (c0 : system) (tr : list label) (c : system) :
  exec ErrCodeOK issuer c0 tr c ->
  inflight c0 = fetching (daemon c0) ->
  inflight c = fetching (daemon c).
Proof.
  induction 1 as [c | c0 tr c l c' Hex IH Hst]; intros H0; [exact H0 |].
  eapply step_inflight; eauto.
Qed.

Lemma all_fetched_snoc (tr : list label) (l : label) :
  all_fetched (tr ++ [l])
  = (all_fetched tr ++ match l with LFetched _ k => [k] | _ => [] end)%list.
Proof.
  unfold all_fetched. rewrite flat_map_app. cbn. now rewrite app_nil_r.
Qed.

Lemma fetched_by_request_snoc (tr : list label) (l : label) :
  fetched_by_request (tr ++ [l])
  = (fetched_by_request tr
     ++ match l with LFetched (Refresh _) k => [k] | _ => [] end)%list.
Proof.
  unfold fetched_by_request. rewrite flat_map_app. cbn. now rewrite app_nil_r.
Qed.

Lemma given_snoc (tr : list label) (l : label) :
  given (tr ++ [l])
  = (given tr ++ match l with LGive r => [r] | _ => [] end)%list.
Proof.
  unfold given. rewrite flat_map_app. cbn. now rewrite app_nil_r.
Qed.

Lemma awaiting_middle (l1 l2 : list caller) (c : caller) :
  awaiting (l1 ++ c :: l2)
  = (awaiting l1 + match c with CAwait => 1 | _ => 0 end + awaiting l2)%nat.
Proof.
  unfold awaiting. rewrite filter_app, length_app. cbn [filter].
  destruct c; cbn [List.length]; lia.
Qed.

Lemma done_results_middle (l1 l2 : list caller) (c : caller) :
  done_results (l1 ++ c :: l2)
  = (done_results l1
     ++ match c with CDone t e => [mkRslt t e] | _ => [] end
     ++ done_results l2)%list.
Proof.
  unfold done_results. rewrite flat_map_app. reflexivity.
Qed.

Lemma refreshing_middle (l1 l2 : list caller) (c : caller) :
  Forall refreshing (l1 ++ c :: l2)
  <-> Forall refreshing l1 /\ refreshing c /\ Forall refreshing l2.
Proof.
  rewrite Forall_app, Forall_cons_iff. tauto.
Qed.

Lemma CTicket_not_refreshing : ~ refreshing CTicket.
Proof. intros [H | [H | H]]; (discriminate || exact H). Qed.

Lemma CRefresh_refreshing (cur : string) : refreshing (CRefresh cur) -> cur = "".
Proof. intros [H | [H | H]]; (congruence || discriminate || contradiction). Qed.

(** Every step keeps [refresh_inv]. *)
Lemma step_refresh_inv (k0 : nat) (tr : list label)
  (c : system) (l : label) (c' : system) :
  step ErrCodeOK issuer c l c' ->
  refresh_inv ErrCodeOK issuer k0 tr c ->
  refresh_inv ErrCodeOK issuer k0 (tr ++ [l]) c'.
Proof.
  intros Hst (Hc & Hseq & Hcs & Haw & Hcur & Hrep & Hperm).
  unfold refresh_inv.
  rewrite all_fetched_snoc, fetched_by_request_snoc, given_snoc.
  inversion Hst; subst; cbn [srv daemon callers inflight] in *.
  - apply refreshing_middle in Hcs. destruct Hcs as (_ & H' & _).
    now apply CTicket_not_refreshing in H'.
  - apply refreshing_middle in Hcs. destruct Hcs as (_ & H' & _).
    now apply CTicket_not_refreshing in H'.
  - apply refreshing_middle in Hcs. destruct Hcs as (_ & H' & _).
    apply CRefresh_refreshing in H'. subst.
    exfalso. eapply empty_never_stale. eassumption.
  - (* the daemon takes a request *)
    pose proof Hcs as Hcs'.
    apply refreshing_middle in Hcs'. destruct Hcs' as (H1 & H' & H2).
    apply CRefresh_refreshing in H'. subst.
    rewrite awaiting_middle in *. rewrite done_results_middle in *.
    rewrite !app_nil_r in *. cbn [emit calls serving pending] in *.
    repeat split; try assumption.
    + apply refreshing_middle. repeat split; try assumption.
      right; now left.
    + lia.
    + intros cur E. now injection E as <-.
  - (* the ticker fires *)
    rewrite !app_nil_r in *. cbn [serving pending] in *.
    repeat split; try assumption. intros cur E. discriminate E.
  - (* GetJSON returns to a request *)
    specialize (Hcur _ eq_refl). subst.
    match goal with
    | H : updateTicket _ _ _ _ = _ |- _ =>
        destruct (sending_after_fetch _ _ _ _ _ H) as (Hn & d & Hd)
    end.
    rewrite Hd. cbn [serving pending] in *.
    rewrite !app_nil_r in *. rewrite length_app, map_app. cbn [List.length map].
    repeat split; try assumption.
    + lia.
    + rewrite Nat.add_1_r, seq_S. now rewrite <- Hseq, Hc.
    + intros cur E. discriminate E.
    + now rewrite <- Hrep.
  - (* GetJSON returns to the ticker *)
    match goal with
    | H : updateTicket _ _ _ _ = _ |- _ =>
        destruct (sending_after_fetch _ _ _ _ _ H) as (Hn & _)
    end.
    match goal with
    | |- context [after_tick ?t ?e ?s ?n ?cs] =>
        pose proof (after_tick_at_rest t e s n cs) as Hr;
        destruct (at_rest_idle _ _ _ _ Hr) as (_ & Hsv & Hpd);
        destruct Hr as (Hk & _ & Hcl & Hdm)
    end.
    rewrite Hk, Hcl, Hsv, Hpd.
    rewrite !app_nil_r in *. rewrite length_app. cbn [List.length serving] in *.
    repeat split; try assumption.
    + lia.
    + rewrite Nat.add_1_r, seq_S. now rewrite <- Hseq, Hc.
    + intros cur E. destruct Hdm as [Hdm | Hdm]; rewrite Hdm in E; discriminate E.
  - (* the daemon's reply reaches the caller that waits *)
    match goal with
    | |- context [resume ?d ?s ?n ?cs] =>
        pose proof (resume_at_rest d s n cs) as Hr;
        destruct (at_rest_idle _ _ _ _ Hr) as (_ & Hsv & Hpd);
        destruct Hr as (Hk & _ & Hcl & Hdm)
    end.
    rewrite Hk, Hcl, Hsv, Hpd.
    pose proof Hcs as Hcs'.
    apply refreshing_middle in Hcs'. destruct Hcs' as (H1 & _ & H2).
    rewrite awaiting_middle in *. rewrite done_results_middle in *.
    rewrite !app_nil_r in *. cbn [emit calls serving pending app] in *.
    repeat split; try assumption.
    + apply refreshing_middle. repeat split; try assumption.
      right; right; exact I.
    + lia.
    + intros cur E. destruct Hdm as [Hdm | Hdm]; rewrite Hdm in E; discriminate E.
    + destruct rslt as [tk e]. cbn [rslt_ticket rslt_err].
      apply Permutation_trans with (mkRslt tk e :: given tr).
      * apply Permutation_sym, Permutation_cons_app, Permutation_sym.
        exact Hperm.
      * apply Permutation_cons_append.
Qed.

Lemma exec_refresh_inv (k0 : nat) (c0 : system) (tr : list label) (c : system) :
  exec ErrCodeOK issuer c0 tr c ->
  refresh_inv ErrCodeOK issuer k0 [] c0 ->
  refresh_inv ErrCodeOK issuer k0 tr c.
Proof.
  induction 1 as [c | c0 tr c l c' Hex IH Hst]; intros H0; [exact H0 |].
  eapply step_refresh_inv; eauto.
Qed.

(** Building executions from the front. *)
Lemma exec_cons (c0 : system) (l : label) (c1 : system)
  (tr : list label) (c : system) :
  step ErrCodeOK issuer c0 l c1 ->
  exec ErrCodeOK issuer c1 tr c ->
  exec ErrCodeOK issuer c0 (l :: tr) c.
Proof.
  intros Hst Hex. induction Hex as [c | c1 tr c l' c' Hex IH Hst'].
  - apply (exec_snoc _ _ c0 [] c0 l c); [constructor | exact Hst].
  - change (l :: tr ++ [l'])%list with ((l :: tr) ++ [l'])%list.
    eapply exec_snoc; [apply IH; exact Hst | exact Hst'].
Qed.

Lemma exec_trans (c0 : system) (tr1 : list label) (c1 : system)
  (tr2 : list label) (c2 : system) :
  exec ErrCodeOK issuer c0 tr1 c1 ->
  exec ErrCodeOK issuer c1 tr2 c2 ->
  exec ErrCodeOK issuer c0 (tr1 ++ tr2) c2.
Proof.
  intros H1 H2. induction H2 as [c | c1 tr c l c' Hex IH Hst].
  - now rewrite app_nil_r.
  - rewrite app_assoc. eapply exec_snoc; [apply IH; exact H1 | exact Hst].
Qed.

(** The send that ends a request, as [daemon_step] has it. *)
Lemma give_as_daemon_step (t : jsapiTicket) (cached : bool) (err : option error)
  (s1 : state) (r : refreshTicketResult) (s' : state) (l1 l2 : list caller) :
  match err with
  | Some e =>
      Some (Some (mkRslt "" (Some e)), emit (EResponse (mkRslt "" (Some e))) s1)
  | None =>
      if negb cached then
        match retune (mul64 (ExpiresIn t) Second)
                (emit (EResponse (mkRslt (Ticket t) None)) s1) with
        | Some s3 => Some (Some (mkRslt (Ticket t) None), s3)
        | None => None
        end
      else Some (Some (mkRslt (Ticket t) None),
                 emit (EResponse (mkRslt (Ticket t) None)) s1)
  end = Some (Some r, s') ->
  step ErrCodeOK issuer
    (mkSystem s1 (sending t cached err) 0 (l1 ++ CAwait :: l2))
    (LGive r)
    (mkSystem s' DSelect 0 (l1 ++ CDone (rslt_ticket r) (rslt_err r) :: l2)).
Proof.
  intros H. unfold sending.
  destruct err as [e |].
  - injection H as <- <-.
    apply (step_give _ _ s1 0 l1 l2 (mkRslt "" (Some e)) None).
  - destruct cached; cbn [negb] in *.
    + injection H as <- <-.
      apply (step_give _ _ s1 0 l1 l2 (mkRslt (Ticket t) None) None).
    + destruct (retune _ _) as [s3 |] eqn:Er; [| discriminate H].
      injection H as <- <-.
      pose proof (step_give ErrCodeOK issuer s1 0 l1 l2 (mkRslt (Ticket t) None)
                    (Some (mul64 (ExpiresIn t) Second))) as Hg.
      unfold resume, restart in Hg. rewrite Er in Hg. exact Hg.
Qed.

(** A turn of the daemon for a request is an execution of the
    goroutines: the request is taken, [GetJSON] is called unless the cache
    answers, and the reply reaches the caller. *)
Lemma refresh_as_execution (currentTicket : string) (s : state)
  (r : refreshTicketResult) (s' : state) (l1 l2 : list caller) :
  daemon_step ErrCodeOK issuer (Refresh currentTicket) s = Some (Some r, s') ->
  exists tr,
    exec ErrCodeOK issuer
      (mkSystem s DSelect 0 (l1 ++ CRefresh currentTicket :: l2)) tr
      (mkSystem s' DSelect 0 (l1 ++ CDone (rslt_ticket r) (rslt_err r) :: l2))
    /\ given tr = [r].
Proof.
  unfold daemon_step.
  destruct (updateTicket ErrCodeOK issuer currentTicket
              (emit (ERequest currentTicket) s)) as [[[t cached] err] s1] eqn:E.
  intros H. apply (give_as_daemon_step t cached err s1 r s' l1 l2) in H.
  destruct (stale_signal_dec currentTicket (ticketCache s)) as [St | St].
  - exists [LTake currentTicket false; LGive r]. split; [| reflexivity].
    eapply exec_cons; [exact (step_take_cached _ _ _ _ _ _ _ _ _ _ _ St E) |].
    eapply exec_cons; [exact H | constructor].
  - exists [LTake currentTicket true;
            LFetched (Refresh currentTicket) (calls s); LGive r].
    split; [| reflexivity].
    eapply exec_cons; [exact (step_take_fetch _ _ s 0 l1 l2 currentTicket St) |].
    eapply exec_cons;
      [exact (step_fetched_request _ _ _ 1 _ _ _ _ _ _ E) |].
    eapply exec_cons; [exact H | constructor].
Qed.

(** A turn of the daemon for a ticker firing is an execution too. *)
Lemma tick_as_execution (s s' : state) (cs : list caller) :
  daemon_step ErrCodeOK issuer TickerC s = Some (None, s') ->
  exec ErrCodeOK issuer (mkSystem s DSelect 0 cs)
    [LTick; LFetched TickerC (calls s)] (mkSystem s' DSelect 0 cs).
Proof.
  unfold daemon_step.
  destruct (updateTicket ErrCodeOK issuer "" s) as [[[t cached] err] s1] eqn:E.
  intros H.
  eapply exec_cons; [apply step_tick |].
  eapply exec_cons; [| apply exec_nil].
  pose proof (step_fetched_tick ErrCodeOK issuer s 1 cs t cached err s1 E) as Hst.
  unfold after_tick, restart in Hst. cbn [pred] in Hst.
  destruct err as [e |].
  - injection H as <-. exact Hst.
  - destruct (_ >? _).
    + destruct (retune _ _) as [s2 |]; [| discriminate H].
      injection H as <-. exact Hst.
    + injection H as <-. exact Hst.
Qed.

Lemma daemon_refresh_total (currentTicket : string) (s : state) :
  exists r s',
    daemon_step ErrCodeOK issuer (Refresh currentTicket) s = Some (Some r, s').
Proof.
  destruct (stale_signal_dec currentTicket (ticketCache s)) as [St | St];
    [| destruct (fetch_failed_or_issued (issuer (calls s)))
         as [Hf | (tk & raw & Hi & Hr)]].
  - rewrite daemon_refresh_stale by assumption. do 2 eexists. reflexivity.
  - rewrite daemon_refresh_failed by assumption. do 2 eexists. reflexivity.
  - rewrite (daemon_refresh_stored currentTicket s tk raw) by assumption.
    do 2 eexists. reflexivity.
Qed.

(** Callers of [RefreshTicket("")] can all be served, one after the
    other. *)
Lemma all_can_return (n : nat) (ds : list caller) (s : state) :
  Forall is_done ds ->
  exists tr c,
    exec ErrCodeOK issuer
      (mkSystem s DSelect 0 (ds ++ repeat (CRefresh "") n)) tr c
    /\ Forall is_done (callers c).
Proof.
  revert ds s. induction n as [| n IH]; intros ds s Hd.
  - exists [], (mkSystem s DSelect 0 (ds ++ [])%list). split; [constructor |].
    cbn. now rewrite app_nil_r.
  - destruct (daemon_refresh_total "" s) as (r & s' & E).
    destruct (refresh_as_execution "" s r s' ds (repeat (CRefresh "") n) E)
      as (tr1 & Hex1 & _).
    destruct (IH (ds ++ [CDone (rslt_ticket r) (rslt_err r)])%list s')
      as (tr2 & c & Hex2 & Hall).
    { apply Forall_app. split; [exact Hd | repeat constructor]. }
    rewrite <- app_assoc in Hex2. cbn [app] in Hex2.
    exists (tr1 ++ tr2)%list, c. split; [| exact Hall].
    eapply exec_trans; eassumption.
Qed.

Lemma fetched_by_request_incl (tr : list label) :
  incl (fetched_by_request tr) (all_fetched tr).
Proof.
  induction tr as [| l tr IH]; [apply incl_refl |].
  unfold fetched_by_request, all_fetched in *. cbn [flat_map].
  destruct l as [| | | [cur |] k |]; cbn [app];
    try exact IH.
  - apply incl_cons; [now left | now apply incl_tl].
  - now apply incl_tl.
Qed.

Lemma fetched_by_request_NoDup (tr : list label) :
  NoDup (all_fetched tr) -> NoDup (fetched_by_request tr).
Proof.
  induction tr as [| l tr IH]; [intros; constructor |].
  unfold fetched_by_request, all_fetched in *. cbn [flat_map].
  destruct l as [| | | [cur |] k |]; cbn [app]; try exact IH.
  - intros H. inversion H as [| x xs Hn Hnd]; subst.
    constructor; [| now apply IH].
    intros Hin. apply Hn. now apply (fetched_by_request_incl tr).
  - intros H. inversion H; subst. now apply IH.
Qed.

Lemma done_results_repeat (n : nat) :
  done_results (repeat (CRefresh "") n) = [].
Proof. induction n as [| n IH]; [reflexivity | exact IH]. Qed.

Lemma awaiting_repeat (n : nat) : awaiting (repeat (CRefresh "") n) = 0%nat.
Proof. induction n as [| n IH]; [reflexivity | exact IH]. Qed.

Lemma refresh_inv_init (n : nat) (s0 : state) :
  refresh_inv ErrCodeOK issuer (calls s0) []
    (mkSystem s0 DSelect 0 (repeat (CRefresh "") n)).
Proof.
  unfold refresh_inv. cbn [srv daemon callers all_fetched fetched_by_request
                            given flat_map List.length seq map app pending serving].
  rewrite done_results_repeat, awaiting_repeat. repeat split; try lia.
  - apply Forall_forall. intros c Hc. apply repeat_spec in Hc. now left.
  - intros cur E. discriminate E.
  - constructor.
Qed.

Lemma all_done_none_awaiting (cs : list caller) :
  Forall is_done cs ->
  awaiting cs = 0%nat /\ List.length (done_results cs) = List.length cs.
Proof.
  induction 1 as [| c cs Hc _ IH]; [now split |].
  destruct c; try contradiction. destruct IH as [IH1 IH2].
  unfold awaiting, done_results in *. cbn. now rewrite IH2.
Qed.

Lemma exec_callers_length (c0 : system) (tr : list label) (c : system) :
  exec ErrCodeOK issuer c0 tr c ->
  List.length (callers c) = List.length (callers c0).
Proof.
  induction 1 as [c | c0 tr c l c' Hex IH Hst]; [reflexivity |].
  rewrite <- IH.
  inversion Hst; subst; cbn [callers]; try reflexivity;
    try (rewrite !length_app; reflexivity).
  - now destruct (after_tick_at_rest t err s1 (pred n) cs) as (_ & _ & -> & _).
  - match goal with
    | |- context [resume ?d ?s ?n ?cs] =>
        destruct (resume_at_rest d s n cs) as (_ & _ & -> & _)
    end.
    rewrite !length_app. reflexivity.
Qed.

Lemma no_ticker_fetch (tr : list label) :
  (forall k, ~ In (LFetched TickerC k) tr) ->
  all_fetched tr = fetched_by_request tr.
Proof.
  induction tr as [| l tr IH]; [reflexivity |].
  intros H. unfold all_fetched, fetched_by_request in *. cbn [flat_map].
  rewrite IH by (intros k Hk; apply (H k); now right).
  destruct l as [| | | [cur |] k |]; try reflexivity.
  exfalso. apply (H k). now left.
Qed.

(** C7, as the code has it.  Callers and daemon running in any order:
    at most one call of [GetJSON] is in flight at any moment, whatever the
    callers do.  But calls of [RefreshTicket("")] are not merged.  When [n]
    of them have all returned, [n] calls of the issuer were made for them,
    one for each; the replies were sent in the order of these calls, each
    being what belongs to the issuer's answer to its own call (the issuer's
    ticket, or no ticket and the error); the callers hold these replies;
    and the issuer was called [n] times in all unless the ticker fired as
    well.  The [n] callers can always all return. *)
Theorem refresh_calls_served_in_turn :
  (forall cs s0 tr c,
     exec ErrCodeOK issuer (mkSystem s0 DSelect 0 cs) tr c ->
     (inflight c <= 1)%nat)
  /\ (forall n s0 tr c,
        exec ErrCodeOK issuer
          (mkSystem s0 DSelect 0 (repeat (CRefresh "") n)) tr c ->
        Forall is_done (callers c) ->
        List.length (fetched_by_request tr) = n
        /\ NoDup (fetched_by_request tr)
        /\ (forall k, In k (fetched_by_request tr) ->
                      (calls s0 <= k < calls (srv c))%nat)
        /\ given tr
           = map (fun k => reply_of ErrCodeOK (issuer k)) (fetched_by_request tr)
        /\ Permutation (done_results (callers c)) (given tr)
        /\ ((forall k, ~ In (LFetched TickerC k) tr) ->
            calls (srv c) = (calls s0 + n)%nat))
  /\ (forall n s0,
        exists tr c,
          exec ErrCodeOK issuer
            (mkSystem s0 DSelect 0 (repeat (CRefresh "") n)) tr c
          /\ Forall is_done (callers c)).
Proof.
  split; [| split].
  - intros cs s0 tr c Hex.
    rewrite (inflight_follows_daemon _ _ _ Hex eq_refl).
    destruct (daemon c); cbn; lia.
  - intros n s0 tr c Hex Hall.
    destruct (exec_refresh_inv (calls s0) _ _ _ Hex (refresh_inv_init n s0))
      as (Hc & Hseq & _ & Haw & _ & Hrep & Hperm).
    destruct (all_done_none_awaiting _ Hall) as [Hz Hlen].
    assert (Hpd : pending (daemon c) = []).
    { rewrite Hz in Haw. destruct (daemon c); (reflexivity || discriminate Haw). }
    rewrite Hpd, app_nil_r in Hrep.
    assert (Hn : List.length (fetched_by_request tr) = n).
    { rewrite <- (length_map (fun k => reply_of ErrCodeOK (issuer k))), <- Hrep.
      rewrite <- (Permutation_length Hperm), Hlen.
      rewrite (exec_callers_length _ _ _ Hex). cbn [callers].
      apply repeat_length. }
    split; [exact Hn |]. split.
    { apply fetched_by_request_NoDup. rewrite Hseq. apply seq_NoDup. }
    split.
    { intros k Hk. apply fetched_by_request_incl in Hk.
      rewrite Hseq in Hk. apply in_seq in Hk. lia. }
    split; [exact Hrep |]. split; [exact Hperm |].
    intros Hno. rewrite Hc, (no_ticker_fetch tr Hno), Hn. reflexivity.
  - intros n s0. apply (all_can_return n [] s0). constructor.
Qed.

(** The first period lies between 100 and 299 days. *)
Lemma NewDefaultTicketServer_period (r : Z) :
  0 <= r < 200 ->
  exists s, NewDefaultTicketServer r = Some s
            /\ ticketCache s = zeroJsapiTicket
            /\ tickDuration s = (100 + r) * (24 * Hour)
            /\ period_ok s
            /\ fetches_serial false (log s) = Some false.
Proof.
  intros Hr. unfold NewDefaultTicketServer, ticketUpdateDaemon, NewTicker.
  assert (E : mul64 (mul64 Hour 24) (wrap64 (100 + r)) = (100 + r) * (24 * Hour)).
  { unfold mul64, Hour, Second.
    rewrite (wrap64_small (100 + r)) by (unfold int64_range; lia).
    rewrite (wrap64_small (3600 * 1000000000 * 24)) by (unfold int64_range; lia).
    rewrite wrap64_small by (unfold int64_range; lia). lia. }
  rewrite E. unfold Hour, Second.
  destruct (Z.leb_spec ((100 + r) * (24 * (3600 * 1000000000))) 0); [lia |].
  eexists. split; [reflexivity |]. unfold period_ok. cbn [ticketCache tickDuration].
  repeat split; lia.
Qed.

End Properties.

(** * Instances *)

Lemma boot_is_a_new_server : NewDefaultTicketServer 0 = Some boot.
Proof. reflexivity. Qed.

Lemma B_is_stale_for_A : stale_signal "B" (ticketCache holding_A).
Proof. repeat split; discriminate. Qed.

Lemma A_is_not_stale_for_A : ~ stale_signal "A" (ticketCache holding_A).
Proof. intros (_ & _ & H). now apply H. Qed.

Lemma period_ok_holding_A : period_ok holding_A.
Proof. unfold period_ok. cbn. lia. Qed.

(** The rows of the buffer table, each on an issuer that grants "T1". *)
Lemma updateTicket_buffer_table_witness :
  ticketCache (snd (updateTicket 0 (grants "T1" 3601) "" boot)) = mkTicket "T1" 3001
  /\ ticketCache (snd (updateTicket 0 (grants "T1" 1801) "" boot)) = mkTicket "T1" 1501
  /\ ticketCache (snd (updateTicket 0 (grants "T1" 301) "" boot)) = mkTicket "T1" 241
  /\ ticketCache (snd (updateTicket 0 (grants "T1" 61) "" boot)) = mkTicket "T1" 51
  /\ (snd (fst (updateTicket 0 (grants "T1" 60) "" boot))
      = Some (ErrorsNew "expires_in too small: 60")
      /\ ticketCache (snd (updateTicket 0 (grants "T1" 60) "" boot)) = zeroJsapiTicket)
  /\ (snd (fst (updateTicket 0 (grants "T1" 31556953) "" boot))
      = Some (ErrorsNew "expires_in too large: 31556953")
      /\ ticketCache (snd (updateTicket 0 (grants "T1" 31556953) "" boot))
         = zeroJsapiTicket).
Proof.
  pose (row := fun raw =>
    updateTicket_buffer_table 0 (grants "T1" raw) "" boot "T1" raw
      (fst (fst (fst (updateTicket 0 (grants "T1" raw) "" boot))))
      (snd (fst (fst (updateTicket 0 (grants "T1" raw) "" boot))))
      (snd (fst (updateTicket 0 (grants "T1" raw) "" boot)))
      (snd (updateTicket 0 (grants "T1" raw) "" boot))
      (empty_never_stale _) (ex_intro _ "ok" eq_refl)).
  split; [| split; [| split; [| split; [| split]]]].
  - destruct (proj1 (row 3601 eq_refl) eq_refl) as (_ & H1 & H2).
    now rewrite H2, H1.
  - destruct (proj1 (proj2 (row 1801 eq_refl)) eq_refl) as (_ & H1 & H2).
    now rewrite H2, H1.
  - destruct (proj1 (proj2 (proj2 (row 301 eq_refl))) eq_refl) as (_ & H1 & H2).
    now rewrite H2, H1.
  - destruct (proj1 (proj2 (proj2 (proj2 (row 61 eq_refl)))) eq_refl)
      as (_ & H1 & H2).
    now rewrite H2, H1.
  - apply (proj1 (proj2 (proj2 (proj2 (proj2 (row 60 eq_refl)))))). lia.
  - apply (proj2 (proj2 (proj2 (proj2 (proj2 (row 31556953 eq_refl)))))). lia.
Defined.

(** A caller that holds "B" while "A" is cached is answered "A" from the
    cache; a caller that holds "A" itself causes a fetch. *)
Lemma refresh_decision_witness :
  (exists s2,
     daemon_step 0 (grants "T2" 3700) (Refresh "B") holding_A
     = Some (Some (mkRslt "A" None), s2)
     /\ calls s2 = calls holding_A
     /\ tickDuration s2 = tickDuration holding_A
     /\ count is_fetch (log s2) = count is_fetch (log holding_A)
     /\ count is_ticker_effect (log s2) = count is_ticker_effect (log holding_A))
  /\ (false = false
      /\ calls (after_fetch holding_A (mkTicket "T2" 3100)) = 2%nat
      /\ log (after_fetch holding_A (mkTicket "T2" 3100))
         = (log holding_A ++ [EGetJSON 1; EPutTicket (mkTicket "T2" 3100)])%list).
Proof.
  split.
  - apply (proj1 (proj2 (refresh_decision 0 (grants "T2" 3700) "B" holding_A
                           (mkTicket "A" 6600) true None holding_A eq_refl))
             B_is_stale_for_A).
  - apply (proj1 (proj2 (proj2 (refresh_decision 0 (grants "T2" 3700) "A" holding_A
                                  (mkTicket "T2" 3100) false None
                                  (after_fetch holding_A (mkTicket "T2" 3100))
                                  eq_refl)))
             (or_intror (or_intror eq_refl))).
Defined.

(** With "A" cached and the issuer out of reach, a refresh leaves the
    cache empty and the next [Ticket()] asks for a refresh. *)
Lemma failed_fetch_clears_cache_witness :
  ticketCache (after_fetch holding_A zeroJsapiTicket) = zeroJsapiTicket
  /\ srvTicket 0 unreachable (after_fetch holding_A zeroJsapiTicket)
     = RefreshTicket 0 unreachable "" (after_fetch holding_A zeroJsapiTicket).
Proof.
  destruct (proj1 (failed_fetch_clears_cache 0 unreachable "" holding_A)
              (mkTicket "A" 6600) false (ClientError "dial tcp: i/o timeout")
              (after_fetch holding_A zeroJsapiTicket) eq_refl)
    as (_ & _ & _ & Hc & _ & Hn).
  exact (conj Hc Hn).
Defined.

(** The scenario of the specification: with "A" cached for 6600 seconds, a
    caller's refresh that learns 3100 seconds sets the period to 3100
    seconds; a ticker firing that learns 6600 seconds again keeps the
    period; a firing that fails keeps it too. *)
Lemma retune_policy_witness :
  (exists s',
     daemon_step 0 (grants "T2" 3700) (Refresh "A") holding_A
     = Some (Some (mkRslt "T2" None), s')
     /\ ticketCache s' = mkTicket "T2" 3100
     /\ tickDuration s' = 3100 * Second)
  /\ (exists s',
        daemon_step 0 (grants "A" 7200) TickerC holding_A = Some (None, s')
        /\ tickDuration s' = tickDuration holding_A)
  /\ (exists r s',
        daemon_step 0 unreachable TickerC holding_A = Some (r, s')
        /\ tickDuration s' = tickDuration holding_A).
Proof.
  split; [| split].
  - destruct (proj1 (retune_policy 0 (grants "T2" 3700) holding_A)
                "A" "T2" 3700 A_is_not_stale_for_A
                (ex_intro _ "ok" eq_refl) ltac:(lia))
      as (s' & E & Hc & Hd & _).
    exists s'. rewrite Hc in Hd. auto.
  - destruct (proj1 (proj2 (retune_policy 0 (grants "A" 7200) holding_A))
                "A" 7200 period_ok_holding_A
                (ex_intro _ "ok" eq_refl) ltac:(lia))
      as (s' & E & Hc & _ & Hkeep).
    exists s'. split; [exact E |].
    apply Hkeep. rewrite Hc. vm_compute. discriminate.
  - destruct (proj2 (proj2 (retune_policy 0 unreachable holding_A)) TickerC I)
      as (r & s' & E & Hd & _).
    exists r, s'. auto.
Defined.

(** [Ticket()] on a server that holds "A", and on a new one. *)
Lemma Ticket_reads_then_refreshes_witness :
  srvTicket 0 unreachable holding_A = Some (("A", None), holding_A)
  /\ srvTicket 0 unreachable boot = RefreshTicket 0 unreachable "" boot.
Proof.
  split.
  - apply (proj1 (Ticket_reads_then_refreshes 0 unreachable holding_A)).
    discriminate.
  - apply (proj2 (Ticket_reads_then_refreshes 0 unreachable boot)).
    reflexivity.
Defined.

(** A cached "A" is served with a lifetime of zero and of minus one. *)
Lemma Ticket_ignores_expiry_witness :
  srvTicket 0 unreachable (mkState (mkTicket "A" 0) 1 6600000000000 [])
  = Some (("A", None), mkState (mkTicket "A" 0) 1 6600000000000 [])
  /\ srvTicket 0 unreachable (mkState (mkTicket "A" (-1)) 1 6600000000000 [])
     = Some (("A", None), mkState (mkTicket "A" (-1)) 1 6600000000000 []).
Proof.
  split; apply Ticket_ignores_expiry; discriminate.
Defined.

(** The short-circuit on a server that holds "A". *)
Lemma short_circuit_writes_nothing_witness :
  ticketCache (snd (updateTicket 0 (grants "T2" 3700) "B" holding_A))
  = mkTicket "A" 6600
  /\ snd (updateTicket 0 (grants "T2" 3700) "B" holding_A) = holding_A.
Proof.
  destruct (short_circuit_writes_nothing 0 (grants "T2" 3700) "B" holding_A
              (mkTicket "A" 6600) None
              (snd (updateTicket 0 (grants "T2" 3700) "B" holding_A))
              eq_refl)
    as (_ & _ & _ & _ & H).
  split; [now rewrite H | exact H].
Defined.

(** The two ends of the range: 61 gives 51 and 31556952 gives 31556352. *)
Lemma buffered_expiry_range_witness :
  (51 <= 51 <= 31556352 /\ 0 < mul64 51 Second)
  /\ (51 <= 31556352 <= 31556352 /\ 0 < mul64 31556352 Second).
Proof.
  split.
  - destruct (buffered_expiry_range 0 (grants "T1" 61) "" boot
                (mkTicket "T1" 51)
                (after_fetch boot (mkTicket "T1" 51)) eq_refl)
      as (H1 & _ & _ & H2 & _).
    exact (conj H1 H2).
  - destruct (buffered_expiry_range 0 (grants "T1" 31556952) "" boot
                (mkTicket "T1" 31556352)
                (after_fetch boot (mkTicket "T1" 31556352)) eq_refl)
      as (H1 & _ & _ & H2 & _).
    exact (conj H1 H2).
Defined.

(** A lifetime above one year on the [switch]'s order of rows. *)
Lemma switch_follows_switch_table_witness :
  observe (updateTicket 0 (grants "T1" 31556953) "" boot)
  = table_outcome switch_table 31556953.
Proof.
  apply (switch_follows_switch_table 0 (grants "T1" 31556953) "" boot "T1").
  - apply empty_never_stale.
  - exists "ok". reflexivity.
Defined.

(** The listed order sends a lifetime above one year to its first row,
    "> 3600", and would store it less 600; the code reports it as too
    large.  This holds on either reading of the rows "lo-hi". *)
Lemma listed_order_counterexample :
  observe (updateTicket 0 (grants "T1" 31556953) "" boot) = TooLarge
  /\ table_outcome (listed_table false) 31556953 = Buffered 31556353
  /\ table_outcome (listed_table true) 31556953 = Buffered 31556353
  /\ ~ follows_table 0 (grants "T1" 31556953) (listed_table false)
  /\ ~ follows_table 0 (grants "T1" 31556953) (listed_table true).
Proof.
  split; [reflexivity | split; [reflexivity | split; [reflexivity |]]].
  split; intros H;
    specialize (H "" boot "T1" 31556953 (empty_never_stale _)
                  (ex_intro _ "ok" eq_refl));
    vm_compute in H; discriminate.
Qed.

Lemma period_ok_boot : period_ok boot.
Proof. unfold period_ok. cbn. lia. Qed.

(** Two callers of [RefreshTicket("")] on a new server, served one after
    the other: each request is taken, its fetch returns, its reply is
    given. *)
Lemma two_refresh_calls_run :
  exists s,
    exec 0 grants_T1_then_T2
      (mkSystem boot DSelect 0 [CRefresh ""; CRefresh ""])
      [LTake "" true; LFetched (Refresh "") 0; LGive (mkRslt "T1" None);
       LTake "" true; LFetched (Refresh "") 1; LGive (mkRslt "T2" None)]
      (mkSystem s DSelect 0 [CDone "T1" None; CDone "T2" None]).
Proof.
  eexists.
  eapply exec_cons.
  { apply (step_take_fetch 0 grants_T1_then_T2 boot 0 [] [CRefresh ""] "").
    apply empty_never_stale. }
  eapply exec_cons.
  { apply (step_fetched_request 0 grants_T1_then_T2
             (emit (ERequest "") boot) 1 ([] ++ CAwait :: [CRefresh ""]) ""
             (mkTicket "T1" 6600) false None).
    lazy. reflexivity. }
  eapply exec_cons.
  { apply (step_give 0 grants_T1_then_T2 _ 0 [] [CRefresh ""]
             (mkRslt "T1" None) (Some 6600000000000)). }
  eapply exec_cons.
  { apply (step_take_fetch 0 grants_T1_then_T2 _ 0 [CDone "T1" None] [] "").
    apply empty_never_stale. }
  eapply exec_cons.
  { match goal with
    | |- step _ _ (mkSystem ?s1 _ _ _) _ _ =>
        apply (step_fetched_request 0 grants_T1_then_T2 s1 1
                 ([CDone "T1" None] ++ CAwait :: []) ""
                 (mkTicket "T2" 3100) false None)
    end.
    lazy. reflexivity. }
  eapply exec_cons.
  { apply (step_give 0 grants_T1_then_T2 _ 0 [CDone "T1" None] []
             (mkRslt "T2" None) (Some 3100000000000)). }
  apply exec_nil.
Qed.

Lemma refresh_calls_served_in_turn_witness :
  exists tr c,
    exec 0 grants_T1_then_T2
      (mkSystem boot DSelect 0 (repeat (CRefresh "") 2)) tr c
    /\ (inflight c <= 1)%nat
    /\ List.length (fetched_by_request tr) = 2%nat
    /\ given tr = [mkRslt "T1" None; mkRslt "T2" None]
    /\ done_results (callers c) = [mkRslt "T1" None; mkRslt "T2" None]
    /\ calls (srv c) = (calls boot + 2)%nat.
Proof.
  destruct two_refresh_calls_run as [s Hex].
  do 2 eexists. split; [exact Hex |].
  destruct (refresh_calls_served_in_turn 0 grants_T1_then_T2)
    as (Hone & Hall & _).
  split; [exact (Hone _ _ _ _ Hex) |].
  destruct (Hall 2%nat boot _ _ Hex) as (Hn & _ & _ & Hrep & _ & Hcalls).
  { repeat constructor. }
  split; [exact Hn |]. split; [reflexivity |]. split; [reflexivity |].
  apply Hcalls. intros k [H | [H | [H | [H | [H | [H | []]]]]]]; discriminate H.
Defined.

(** Two calls of [RefreshTicket("")] on a new server cost two fetches, and
    when the issuer grants "T1" and then "T2" the first caller receives "T1"
    and the second "T2". *)
Lemma single_flight_counterexample :
  (exists s',
     daemon_run 0 grants_T1_then_T2 [Refresh ""; Refresh ""] boot
     = Some ([mkRslt "T1" None; mkRslt "T2" None], s')
     /\ calls s' = 2%nat)
  /\ ~ single_flight 0 grants_T1_then_T2 2 boot
  /\ ~ single_flight 0 (grants "T1" 7200) 2 boot.
Proof.
  split; [| split].
  - eexists. split; vm_compute; reflexivity.
  - intros (rs & s' & E & Hc & _). vm_compute in E.
    injection E as _ <-. discriminate Hc.
  - intros (rs & s' & E & Hc & _). vm_compute in E.
    injection E as _ <-. discriminate Hc.
Qed.

(** * Further properties *)

Section MoreProperties.

Variable ErrCodeOK : Z.
Variable issuer : nat -> error + getticketResult.

(** A ticker firing whose fetch succeeds, whatever the period was. *)
Lemma daemon_tick_stored_any (s : state) (ticket : string) (raw : Z) :
  issued ErrCodeOK (issuer (calls s)) ticket raw ->
  60 < raw <= 31556952 ->
  exists b : bool,
    daemon_step ErrCodeOK issuer TickerC s
    = Some (None,
            if b
            then mkState (mkTicket ticket (raw - margin raw)) (S (calls s))
                   ((raw - margin raw) * Second)
                   (log s ++ [EGetJSON (calls s);
                              EPutTicket (mkTicket ticket (raw - margin raw));
                              ETickerStop;
                              ENewTicker ((raw - margin raw) * Second)])
            else mkState (mkTicket ticket (raw - margin raw)) (S (calls s))
                   (tickDuration s)
                   (log s ++ [EGetJSON (calls s);
                              EPutTicket (mkTicket ticket (raw - margin raw))])).
Proof.
  intros Hi Hr. unfold daemon_step.
  rewrite (updateTicket_stored ErrCodeOK issuer "" _ ticket raw)
    by (assumption || apply empty_never_stale).
  destruct (margin_bounds raw Hr) as [Hb _].
  destruct (buffered_duration _ Hb) as [Hm Hd].
  cbn [ExpiresIn Ticket after_fetch tickDuration]. rewrite Hm.
  destruct (abs _ >? _).
  - exists true. rewrite retune_positive by lia.
    cbn. now rewrite <- !app_assoc.
  - exists false. unfold after_fetch. cbn. now rewrite <- !app_assoc.
Qed.

(** What one turn of the daemon adds to the log. *)
Lemma daemon_step_summary (ev : event) (s : state) :
  exists r s' l,
    daemon_step ErrCodeOK issuer ev s = Some (r, s')
    /\ log s' = (log s ++ l)%list
    /\ count is_request l = (if is_refresh ev then 1 else 0)%nat
    /\ count is_response l = (if is_refresh ev then 1 else 0)%nat
    /\ (if is_refresh ev then r <> None else r = None)
    /\ calls s' = (calls s + count is_fetch l)%nat
    /\ count is_put l = count is_fetch l
    /\ (count is_fetch l <= 1)%nat
    /\ (is_refresh ev = false -> count is_fetch l = 1%nat).
Proof.
  destruct ev as [cur |].
  - destruct (stale_signal_dec cur (ticketCache s)) as [St | St];
      [| destruct (fetch_failed_or_issued ErrCodeOK (issuer (calls s)))
           as [Hf | (tk & raw & Hi & Hr)]].
    + rewrite daemon_refresh_stale by assumption.
      do 2 eexists.
      exists [ERequest cur; EResponse (mkRslt (Ticket (ticketCache s)) None)].
      split; [reflexivity |]. split.
      { unfold emit; cbn. now rewrite <- app_assoc. }
      cbn. repeat split; (discriminate || lia).
    + rewrite daemon_refresh_failed by assumption.
      do 2 eexists.
      exists [ERequest cur; EGetJSON (calls s); EPutTicket zeroJsapiTicket;
              EResponse (mkRslt "" (Some (fetch_error ErrCodeOK (issuer (calls s)))))].
      split; [reflexivity |]. split.
      { unfold emit, after_fetch; cbn. now rewrite <- !app_assoc. }
      cbn. repeat split; (discriminate || lia).
    + rewrite (daemon_refresh_stored ErrCodeOK issuer cur s tk raw) by assumption.
      do 3 eexists. split; [reflexivity |]. split; [reflexivity |].
      cbn. repeat split; (discriminate || lia).
  - destruct (fetch_failed_or_issued ErrCodeOK (issuer (calls s)))
      as [Hf | (tk & raw & Hi & Hr)].
    + rewrite daemon_tick_failed by assumption.
      do 2 eexists. exists [EGetJSON (calls s); EPutTicket zeroJsapiTicket].
      split; [reflexivity |]. split.
      { unfold after_fetch; cbn. now rewrite <- !app_assoc. }
      cbn. repeat split; lia.
    + destruct (daemon_tick_stored_any s tk raw Hi Hr) as [[|] E]; rewrite E.
      * do 3 eexists. split; [reflexivity |]. split; [reflexivity |].
        cbn. repeat split; lia.
      * do 3 eexists. split; [reflexivity |]. split; [reflexivity |].
        cbn. repeat split; lia.
Qed.


(** The three ways [RefreshTicket] returns. *)
Lemma RefreshTicket_cases (currentTicket : string) (s : state) :
  (stale_signal currentTicket (ticketCache s)
   /\ RefreshTicket ErrCodeOK issuer currentTicket s
      = Some ((Ticket (ticketCache s), None),
              emit (EResponse (mkRslt (Ticket (ticketCache s)) None))
                   (emit (ERequest currentTicket) s)))
  \/ (~ stale_signal currentTicket (ticketCache s)
      /\ fetch_failed ErrCodeOK (issuer (calls s))
      /\ RefreshTicket ErrCodeOK issuer currentTicket s
         = Some (("", Some (fetch_error ErrCodeOK (issuer (calls s)))),
                 emit (EResponse
                         (mkRslt "" (Some (fetch_error ErrCodeOK (issuer (calls s))))))
                      (after_fetch (emit (ERequest currentTicket) s)
                                   zeroJsapiTicket)))
  \/ (~ stale_signal currentTicket (ticketCache s)
      /\ exists ticket raw,
           issued ErrCodeOK (issuer (calls s)) ticket raw
           /\ 60 < raw <= 31556952
           /\ RefreshTicket ErrCodeOK issuer currentTicket s
              = Some ((ticket, None),
                      mkState (mkTicket ticket (raw - margin raw)) (S (calls s))
                        ((raw - margin raw) * Second)
                        (log s ++ [ERequest currentTicket; EGetJSON (calls s);
                                   EPutTicket (mkTicket ticket (raw - margin raw));
                                   EResponse (mkRslt ticket None);
                                   ETickerStop;
                                   ENewTicker ((raw - margin raw) * Second)]))).
Proof.
  unfold RefreshTicket.
  destruct (stale_signal_dec currentTicket (ticketCache s)) as [St | St];
    [| destruct (fetch_failed_or_issued ErrCodeOK (issuer (calls s)))
         as [Hf | (tk & raw & Hi & Hr)]].
  - left. rewrite daemon_refresh_stale by assumption. now split.
  - right; left. rewrite daemon_refresh_failed by assumption. now repeat split.
  - right; right. split; [assumption |]. exists tk, raw.
    rewrite (daemon_refresh_stored ErrCodeOK issuer currentTicket s tk raw)
      by assumption.
    now repeat split.
Qed.

(** X1. [abs] gives the absolute value of every [time.Duration] but the
    least one, which it returns as it is, negative. *)
Theorem abs_int64 (x : Z) :
  int64_range x ->
  (x <> - 2 ^ 63 -> abs x = Z.abs x /\ 0 <= abs x)
  /\ (x = - 2 ^ 63 -> abs x = - 2 ^ 63).
Proof.
  unfold int64_range, abs, neg64. intros Hx. split.
  - intros Hmin. destruct (Z.geb_spec x 0); [lia |].
    rewrite wrap64_small by (unfold int64_range; lia). lia.
  - intros ->. reflexivity.
Qed.

(** X2. A new server has an empty cache and has not called the issuer;
    its first ticker starts, on a whole number of days between 100 and
    299. *)
Theorem new_server_state (r : Z) :
  0 <= r < 200 ->
  NewDefaultTicketServer r
  = Some (mkState zeroJsapiTicket 0 ((100 + r) * (24 * Hour))
            [ENewTicker ((100 + r) * (24 * Hour))])
  /\ 100 * (24 * Hour) <= (100 + r) * (24 * Hour) <= 299 * (24 * Hour).
Proof.
  intros Hr. unfold NewDefaultTicketServer, ticketUpdateDaemon, NewTicker.
  assert (E : mul64 (mul64 Hour 24) (wrap64 (100 + r)) = (100 + r) * (24 * Hour)).
  { unfold mul64, Hour, Second.
    rewrite (wrap64_small (100 + r)) by (unfold int64_range; lia).
    rewrite (wrap64_small (3600 * 1000000000 * 24)) by (unfold int64_range; lia).
    rewrite wrap64_small by (unfold int64_range; lia). lia. }
  rewrite E. unfold Hour, Second.
  destruct (Z.leb_spec ((100 + r) * (24 * (3600 * 1000000000))) 0); [lia |].
  split; [reflexivity | lia].
Qed.

(** X3. [RefreshTicket] always returns.  The ticket it returns is the one
    the cache holds afterwards; with an error the ticket is empty and so is
    the cache; and it costs at most one call of the issuer. *)
Theorem RefreshTicket_reply (currentTicket : string) (s : state) :
  exists t err s',
    RefreshTicket ErrCodeOK issuer currentTicket s = Some ((t, err), s')
    /\ t = Ticket (ticketCache s')
    /\ (err <> None -> t = "" /\ ticketCache s' = zeroJsapiTicket)
    /\ (calls s <= calls s' <= S (calls s))%nat.
Proof.
  destruct (RefreshTicket_cases currentTicket s)
    as [(_ & E) | [(_ & _ & E) | (_ & tk & raw & _ & _ & E)]];
    rewrite E; do 3 eexists; (split; [reflexivity |]); cbn;
    repeat split; (congruence || lia).
Qed.

(** X4. [Ticket()] always returns, at the cost of at most one call of the
    issuer, and what it returns is the ticket the cache holds afterwards.
    It returns an error only when the cache was empty and the fetch failed;
    the ticket is then empty and the cache stays empty. *)
Theorem Ticket_reply (s : state) :
  exists t err s',
    srvTicket ErrCodeOK issuer s = Some ((t, err), s')
    /\ t = Ticket (ticketCache s')
    /\ (err <> None ->
        Ticket (ticketCache s) = ""
        /\ fetch_failed ErrCodeOK (issuer (calls s))
        /\ t = "" /\ ticketCache s' = zeroJsapiTicket)
    /\ (calls s <= calls s' <= S (calls s))%nat.
Proof.
  unfold srvTicket, getTicket. cbn [fst].
  destruct (nonempty (Ticket (ticketCache s))) eqn:En.
  - do 3 eexists. split; [reflexivity |]. repeat split; (congruence || lia).
  - assert (Hempty : Ticket (ticketCache s) = "").
    { unfold nonempty in En. apply negb_false_iff in En.
      now apply String.eqb_eq in En. }
    destruct (RefreshTicket_cases "" s)
      as [(St & _) | [(_ & Hf & E) | (_ & tk & raw & _ & _ & E)]].
    + now apply empty_never_stale in St.
    + rewrite E. do 3 eexists. split; [reflexivity |]. cbn.
      repeat split; (assumption || lia).
    + rewrite E. do 3 eexists. split; [reflexivity |]. cbn.
      repeat split; (congruence || lia).
Qed.

(** X5. A failure of the client's call reaches the caller of
    [RefreshTicket] as it is, and an error reported by the issuer reaches
    it as the [core.Error] with the issuer's code and message, whatever
    ticket and lifetime the reply carries; the ticket returned is empty. *)
Theorem RefreshTicket_errors (currentTicket : string) (s : state) :
  ~ stale_signal currentTicket (ticketCache s) ->
  (forall e,
     issuer (calls s) = inl e ->
     exists s',
       RefreshTicket ErrCodeOK issuer currentTicket s = Some (("", Some e), s'))
  /\ (forall code msg ticket raw,
        issuer (calls s) = inr (mkResult code msg ticket raw) ->
        code <> ErrCodeOK ->
        exists s',
          RefreshTicket ErrCodeOK issuer currentTicket s
          = Some (("", Some (CoreError code msg)), s')).
Proof.
  intros St. split.
  - intros e Ei.
    destruct (RefreshTicket_cases currentTicket s)
      as [(St' & _) | [(_ & _ & E) | (_ & tk & raw & Hi & Hr & _)]].
    + contradiction.
    + rewrite E, Ei. cbn. eexists. reflexivity.
    + rewrite Ei in Hi. destruct Hi as [m Hi]. discriminate.
  - intros code msg ticket raw Ei Hc.
    destruct (RefreshTicket_cases currentTicket s)
      as [(St' & _) | [(_ & _ & E) | (_ & tk & raw' & Hi & Hr & _)]].
    + contradiction.
    + rewrite E, Ei. cbn.
      destruct (Z.eqb_spec code ErrCodeOK); [contradiction |].
      eexists. reflexivity.
    + rewrite Ei in Hi. destruct Hi as [m Hi]. injection Hi as -> _ _ _.
      contradiction.
Qed.

(** X6. Once [Ticket()] has returned a non-empty ticket without an error,
    the next [Ticket()] returns the same ticket and changes nothing. *)
Theorem Ticket_then_Ticket (s : state) (t : string) (s' : state) :
  srvTicket ErrCodeOK issuer s = Some ((t, None), s') ->
  t <> "" ->
  srvTicket ErrCodeOK issuer s' = Some ((t, None), s').
Proof.
  intros E Ht.
  assert (Hc : t = Ticket (ticketCache s')).
  { revert E. unfold srvTicket, getTicket. cbn [fst].
    destruct (nonempty (Ticket (ticketCache s))).
    - intros E. injection E as <- <-. reflexivity.
    - destruct (RefreshTicket_cases "" s)
        as [(_ & E') | [(_ & _ & E') | (_ & tk & raw & _ & _ & E')]];
        rewrite E'; intros E; try discriminate E;
        injection E as <- <-; reflexivity. }
  unfold srvTicket, getTicket. cbn [fst]. rewrite <- Hc.
  apply nonempty_true in Ht. now rewrite Ht.
Qed.

(** X7. The ticket string is not examined: when the issuer reports
    success with an empty ticket and an accepted lifetime, [Ticket()]
    returns the empty ticket without an error, and the cache still counts
    as empty, so the next [Ticket()] asks for a refresh again. *)
Theorem empty_ticket_granted (s : state) (raw : Z) :
  Ticket (ticketCache s) = "" ->
  issued ErrCodeOK (issuer (calls s)) "" raw ->
  60 < raw <= 31556952 ->
  exists s',
    srvTicket ErrCodeOK issuer s = Some (("", None), s')
    /\ calls s' = S (calls s)
    /\ ticketCache s' = mkTicket "" (raw - margin raw)
    /\ srvTicket ErrCodeOK issuer s' = RefreshTicket ErrCodeOK issuer "" s'.
Proof.
  intros He Hi Hr. unfold srvTicket at 1. unfold getTicket. cbn [fst].
  rewrite He. cbn [nonempty String.eqb negb].
  destruct (RefreshTicket_cases "" s)
    as [(St & _) | [(_ & Hf & _) | (_ & tk & raw' & Hi' & _ & E)]].
  - now apply empty_never_stale in St.
  - exfalso. eapply issued_not_failed; eassumption.
  - destruct (issued_inj _ _ _ _ _ _ Hi Hi') as [<- <-].
    rewrite E. eexists. split; [reflexivity |]. cbn.
    repeat split.
Qed.

(** X8. What a successful fetch stores is the issuer's ticket string as it
    came, with a lifetime below the raw one by at least 10 and at most 600
    seconds, and above four fifths of it. *)
Theorem stored_lifetime_bounds
  (currentTicket : string) (s : state) (t : jsapiTicket) (s' : state) :
  updateTicket ErrCodeOK issuer currentTicket s = (t, false, None, s') ->
  exists ticket raw,
    issued ErrCodeOK (issuer (calls s)) ticket raw
    /\ Ticket t = ticket
    /\ raw - 600 <= ExpiresIn t <= raw - 10
    /\ 4 * raw < 5 * ExpiresIn t.
Proof.
  intros E. apply updateTicket_inv in E. inversion E; subst.
  exists ticket, raw. split; [assumption |]. split; [reflexivity |].
  cbn [ExpiresIn]. unfold margin.
  destruct (Z.gtb_spec raw 3600), (Z.gtb_spec raw 1800), (Z.gtb_spec raw 300);
    lia.
Qed.


(** Requests that are short-circuited leave cache, counter and period as
    they are, however many follow each other. *)
Lemma stale_requests_run (n : nat) (currentTicket : string) (s : state) :
  stale_signal currentTicket (ticketCache s) ->
  exists s',
    daemon_run ErrCodeOK issuer (repeat (Refresh currentTicket) n) s
    = Some (repeat (mkRslt (Ticket (ticketCache s)) None) n, s')
    /\ ticketCache s' = ticketCache s
    /\ calls s' = calls s
    /\ tickDuration s' = tickDuration s.
Proof.
  revert s. induction n as [| n IH]; intros s St.
  - exists s. now repeat split.
  - cbn [repeat daemon_run].
    rewrite daemon_refresh_stale by assumption.
    destruct (IH (emit (EResponse (mkRslt (Ticket (ticketCache s)) None))
                       (emit (ERequest currentTicket) s)) St)
      as (s' & E & Hc & Hn & Hd).
    rewrite E. exists s'. cbn in *. now repeat split.
Qed.

(** X9. Callers that report the same ticket share one fetch: when the
    first of them causes a fetch that brings a new, non-empty ticket, the
    others are answered with that ticket from the cache and the issuer is
    called once in all. *)
Theorem same_complaint_one_fetch
  (n : nat) (currentTicket : string) (s : state) (ticket : string) (raw : Z) :
  currentTicket <> "" ->
  ~ stale_signal currentTicket (ticketCache s) ->
  issued ErrCodeOK (issuer (calls s)) ticket raw ->
  60 < raw <= 31556952 ->
  ticket <> "" ->
  ticket <> currentTicket ->
  exists s',
    daemon_run ErrCodeOK issuer (repeat (Refresh currentTicket) (S n)) s
    = Some (repeat (mkRslt ticket None) (S n), s')
    /\ calls s' = S (calls s)
    /\ ticketCache s' = mkTicket ticket (raw - margin raw)
    /\ tickDuration s' = (raw - margin raw) * Second.
Proof.
  intros Hne St Hi Hr Ht Hd.
  cbn [repeat daemon_run].
  rewrite (daemon_refresh_stored ErrCodeOK issuer currentTicket s ticket raw)
    by assumption.
  match goal with
  | |- context [daemon_run _ _ _ ?s1] =>
      destruct (stale_requests_run n currentTicket s1) as (s' & E & Hc & Hn & Hp)
  end.
  { unfold stale_signal. cbn. split; [| split]; congruence. }
  rewrite E. exists s'. cbn in *. now repeat split.
Qed.

(** What a run of the daemon adds up to. *)
Lemma daemon_run_summary (evs : list event) (s : state) :
  exists rs s' k,
    daemon_run ErrCodeOK issuer evs s = Some (rs, s')
    /\ List.length rs = refreshes evs
    /\ count is_request (log s') = (count is_request (log s) + refreshes evs)%nat
    /\ count is_response (log s') = (count is_response (log s) + refreshes evs)%nat
    /\ calls s' = (calls s + k)%nat
    /\ count is_fetch (log s') = (count is_fetch (log s) + k)%nat
    /\ count is_put (log s') = (count is_put (log s) + k)%nat
    /\ (firings evs <= k <= List.length evs)%nat.
Proof.
  revert s. induction evs as [| ev evs IH]; intros s.
  - exists [], s, 0%nat. cbn. repeat split; lia.
  - destruct (daemon_step_summary ev s)
      as (r & s1 & l & E1 & Hl & Hq & Hp & Hr & Hc & Hput & Hle & Hfire).
    destruct (IH s1) as (rs & s2 & k & E2 & Hlen & Hq2 & Hp2 & Hc2 & Hf2 & Hput2 & Hk).
    cbn [daemon_run]. rewrite E1, E2.
    do 2 eexists. exists (count is_fetch l + k)%nat.
    split; [reflexivity |].
    rewrite Hl, !count_app in *.
    unfold refreshes, firings in *. cbn [filter List.length].
    destruct ev as [cur |]; cbn [is_refresh negb List.length] in *.
    + destruct r as [x |]; [| congruence]. cbn [List.length].
      repeat split; lia.
    + subst r. specialize (Hfire eq_refl). repeat split; lia.
Qed.

(** X10. The daemon writes one reply for every request it takes and none
    for a ticker firing, over any sequence of its inputs. *)
Theorem one_reply_per_request (evs : list event) (s : state) :
  exists rs s',
    daemon_run ErrCodeOK issuer evs s = Some (rs, s')
    /\ List.length rs = refreshes evs
    /\ count is_request (log s') = (count is_request (log s) + refreshes evs)%nat
    /\ count is_response (log s') = (count is_response (log s) + refreshes evs)%nat.
Proof.
  destruct (daemon_run_summary evs s) as (rs & s' & k & E & H1 & H2 & H3 & _).
  exists rs, s'. now repeat split.
Qed.

(** X11. Over any sequence of the daemon's inputs the cache is written
    once for every call of the issuer, whatever came of the call; every
    ticker firing costs a call, and no input costs more than one. *)
Theorem every_fetch_is_stored (evs : list event) (s : state) :
  exists rs s' k,
    daemon_run ErrCodeOK issuer evs s = Some (rs, s')
    /\ calls s' = (calls s + k)%nat
    /\ count is_fetch (log s') = (count is_fetch (log s) + k)%nat
    /\ count is_put (log s') = (count is_put (log s) + k)%nat
    /\ (firings evs <= k <= List.length evs)%nat.
Proof.
  destruct (daemon_run_summary evs s)
    as (rs & s' & k & E & _ & _ & _ & H1 & H2 & H3 & H4).
  exists rs, s', k. now repeat split.
Qed.

Lemma settled_period_ok (s : state) : settled s -> period_ok s.
Proof.
  unfold settled, period_ok, Second. intros [H _]. lia.
Qed.

Lemma daemon_step_settled (ev : event) (s : state) :
  settled s ->
  exists r s', daemon_step ErrCodeOK issuer ev s = Some (r, s') /\ settled s'.
Proof.
  intros Hs. pose proof (settled_period_ok s Hs) as Hp.
  destruct Hs as [Hb Hc].
  assert (Hnew : forall tk raw l n, 60 < raw <= 31556952 ->
            settled (mkState (mkTicket tk (raw - margin raw)) n
                       ((raw - margin raw) * Second) l)).
  { intros tk raw l n Hr. destruct (margin_bounds raw Hr) as [Hm _].
    unfold settled, Second. cbn. split; [lia |]. right. split; lia. }
  destruct ev as [cur |].
  - destruct (stale_signal_dec cur (ticketCache s)) as [St | St];
      [| destruct (fetch_failed_or_issued ErrCodeOK (issuer (calls s)))
           as [Hf | (tk & raw & Hi & Hr)]].
    + rewrite daemon_refresh_stale by assumption.
      do 2 eexists. split; [reflexivity |]. now split.
    + rewrite daemon_refresh_failed by assumption.
      do 2 eexists. split; [reflexivity |]. split; [exact Hb | now left].
    + rewrite (daemon_refresh_stored ErrCodeOK issuer cur s tk raw) by assumption.
      do 2 eexists. split; [reflexivity |]. now apply Hnew.
  - destruct (fetch_failed_or_issued ErrCodeOK (issuer (calls s)))
      as [Hf | (tk & raw & Hi & Hr)].
    + rewrite daemon_tick_failed by assumption.
      do 2 eexists. split; [reflexivity |]. split; [exact Hb | now left].
    + rewrite (daemon_tick_stored ErrCodeOK issuer s tk raw) by assumption.
      do 2 eexists. split; [reflexivity |].
      destruct (Z.gtb_spec (Z.abs (tickDuration s - (raw - margin raw) * Second))
                  (2 * Second)) as [Hgt | Hle].
      * now apply Hnew.
      * destruct (margin_bounds raw Hr) as [Hm _].
        split; [exact Hb |]. right. cbn. split; [lia | exact Hle].
Qed.

(** X12. The period follows the cached lifetime.  On a new server, and
    from then on after any sequence of requests and ticker firings, the
    period lies between 51 and 31556352 seconds, and whenever a ticket is
    cached its buffered lifetime lies in the same range and the period is
    within two seconds of it. *)
Theorem period_follows_lifetime :
  (forall r, 0 <= r < 200 ->
     exists s0, NewDefaultTicketServer r = Some s0 /\ settled s0)
  /\ (forall evs s,
        settled s ->
        exists rs s',
          daemon_run ErrCodeOK issuer evs s = Some (rs, s') /\ settled s').
Proof.
  split.
  - intros r Hr.
    destruct (NewDefaultTicketServer_period r Hr) as (s0 & E & Hc & Hd & _).
    exists s0. split; [exact E |].
    unfold settled. rewrite Hd, Hc. unfold Hour, Second.
    split; [lia | now left].
  - intros evs. induction evs as [| ev evs IH]; intros s Hs.
    + exists [], s. now split.
    + destruct (daemon_step_settled ev s Hs) as (r & s1 & E1 & Hs1).
      destruct (IH s1 Hs1) as (rs & s2 & E2 & Hs2).
      cbn [daemon_run]. rewrite E1, E2. do 2 eexists.
      split; [reflexivity | exact Hs2].
Qed.

(** X13. While the issuer keeps failing nothing holds the daemon back:
    from an empty cache every request and every ticker firing calls the
    issuer, every reply carries an error and no ticket, and cache and
    period stay as they are. *)
Theorem issuer_down_every_input_fetches (evs : list event) (s : state) :
  (forall n, fetch_failed ErrCodeOK (issuer n)) ->
  Ticket (ticketCache s) = "" ->
  exists rs s',
    daemon_run ErrCodeOK issuer evs s = Some (rs, s')
    /\ calls s' = (calls s + List.length evs)%nat
    /\ tickDuration s' = tickDuration s
    /\ Ticket (ticketCache s') = ""
    /\ Forall (fun r => rslt_ticket r = "" /\ rslt_err r <> None) rs.
Proof.
  intros Hdown. revert s. induction evs as [| ev evs IH]; intros s He.
  - exists [], s. cbn. repeat split; (lia || assumption || constructor).
  - assert (St : forall cur, ~ stale_signal cur (ticketCache s)).
    { intros cur (_ & H & _). contradiction. }
    cbn [daemon_run]. destruct ev as [cur |].
    + rewrite daemon_refresh_failed by (apply St || apply Hdown).
      match goal with
      | |- context [daemon_run _ _ _ ?s1] =>
          destruct (IH s1 eq_refl) as (rs & s' & E & Hc & Hd & Ht & Hall)
      end.
      rewrite E. do 2 eexists. split; [reflexivity |].
      cbn in *. repeat split; try (lia || assumption).
      constructor; [split; [reflexivity | discriminate] | assumption].
    + rewrite daemon_tick_failed by apply Hdown.
      destruct (IH (after_fetch s zeroJsapiTicket) eq_refl)
        as (rs & s' & E & Hc & Hd & Ht & Hall).
      rewrite E. do 2 eexists. split; [reflexivity |].
      cbn in *. repeat split; try (lia || assumption).
Qed.


(** X14. The short-circuit needs a new ticket.  While the issuer grants
    again the very ticket the callers report, every such call costs a call
    of the issuer and is answered with that ticket. *)
Theorem same_ticket_again_every_call_fetches
  (n : nat) (currentTicket : string) (s : state) :
  (forall k, exists raw,
     issued ErrCodeOK (issuer k) currentTicket raw /\ 60 < raw <= 31556952) ->
  ~ stale_signal currentTicket (ticketCache s) ->
  exists s',
    daemon_run ErrCodeOK issuer (repeat (Refresh currentTicket) n) s
    = Some (repeat (mkRslt currentTicket None) n, s')
    /\ calls s' = (calls s + n)%nat.
Proof.
  intros Hg. revert s. induction n as [| n IH]; intros s St.
  - exists s. cbn. split; [reflexivity | lia].
  - destruct (Hg (calls s)) as (raw & Hi & Hr).
    cbn [repeat daemon_run].
    rewrite (daemon_refresh_stored ErrCodeOK issuer currentTicket s
               currentTicket raw) by assumption.
    match goal with
    | |- context [daemon_run _ _ _ ?s1] =>
        destruct (IH s1) as (s' & E & Hc)
    end.
    { intros (_ & _ & H). now apply H. }
    rewrite E. exists s'. cbn in *. split; [reflexivity | lia].
Qed.

End MoreProperties.

(** * Further instances *)

Lemma abs_int64_witness :
  (abs (-5) = Z.abs (-5) /\ 0 <= abs (-5))
  /\ abs (- 2 ^ 63) = - 2 ^ 63.
Proof.
  split.
  - apply (proj1 (abs_int64 (-5) ltac:(unfold int64_range; lia))). lia.
  - apply (proj2 (abs_int64 (- 2 ^ 63) ltac:(unfold int64_range; lia))).
    reflexivity.
Defined.

Lemma new_server_state_witness :
  NewDefaultTicketServer 199
  = Some (mkState zeroJsapiTicket 0 ((100 + 199) * (24 * Hour))
            [ENewTicker ((100 + 199) * (24 * Hour))])
  /\ 100 * (24 * Hour) <= (100 + 199) * (24 * Hour) <= 299 * (24 * Hour).
Proof.
  apply (new_server_state 199). lia.
Defined.

(** A client error and an issuer error, each on a new server. *)
Lemma RefreshTicket_errors_witness :
  (exists s',
     RefreshTicket 0 unreachable "" boot
     = Some (("", Some (ClientError "dial tcp: i/o timeout")), s'))
  /\ (exists s',
        RefreshTicket 0 rejects "" boot
        = Some (("", Some (CoreError 40001 "invalid credential")), s')).
Proof.
  split.
  - apply (proj1 (RefreshTicket_errors 0 unreachable "" boot
                    (empty_never_stale _))).
    reflexivity.
  - apply (proj2 (RefreshTicket_errors 0 rejects "" boot (empty_never_stale _))
             40001 "invalid credential" "" 0).
    + reflexivity.
    + discriminate.
Defined.

Lemma Ticket_then_Ticket_witness :
  exists s',
    srvTicket 0 (grants "T1" 7200) boot = Some (("T1", None), s')
    /\ srvTicket 0 (grants "T1" 7200) s' = Some (("T1", None), s').
Proof.
  eexists. split; [reflexivity |].
  apply (Ticket_then_Ticket 0 (grants "T1" 7200) boot); [reflexivity | discriminate].
Defined.

Lemma empty_ticket_granted_witness :
  exists s',
    srvTicket 0 (grants "" 7200) boot = Some (("", None), s')
    /\ calls s' = 1%nat
    /\ ticketCache s' = mkTicket "" (7200 - margin 7200)
    /\ srvTicket 0 (grants "" 7200) s' = RefreshTicket 0 (grants "" 7200) "" s'.
Proof.
  apply (empty_ticket_granted 0 (grants "" 7200) boot 7200).
  - reflexivity.
  - exists "ok". reflexivity.
  - lia.
Defined.

Lemma stored_lifetime_bounds_witness :
  exists ticket raw,
    issued 0 (grants "T1" 7200 (calls boot)) ticket raw
    /\ Ticket (mkTicket "T1" 6600) = ticket
    /\ raw - 600 <= ExpiresIn (mkTicket "T1" 6600) <= raw - 10
    /\ 4 * raw < 5 * ExpiresIn (mkTicket "T1" 6600).
Proof.
  apply (stored_lifetime_bounds 0 (grants "T1" 7200) "" boot
           (mkTicket "T1" 6600) (after_fetch boot (mkTicket "T1" 6600))).
  reflexivity.
Defined.

(** Three callers report "A" while "A" is cached. *)
Lemma same_complaint_one_fetch_witness :
  exists s',
    daemon_run 0 (grants "T2" 3700) (repeat (Refresh "A") 3) holding_A
    = Some (repeat (mkRslt "T2" None) 3, s')
    /\ calls s' = S (calls holding_A)
    /\ ticketCache s' = mkTicket "T2" (3700 - margin 3700)
    /\ tickDuration s' = (3700 - margin 3700) * Second.
Proof.
  apply (same_complaint_one_fetch 0 (grants "T2" 3700) 2 "A" holding_A "T2" 3700).
  - discriminate.
  - exact A_is_not_stale_for_A.
  - exists "ok". reflexivity.
  - lia.
  - discriminate.
  - discriminate.
Defined.

Lemma settled_boot : settled boot.
Proof.
  unfold settled, Second. cbn. split; [lia | now left].
Qed.

Lemma period_follows_lifetime_witness :
  (exists s0, NewDefaultTicketServer 0 = Some s0 /\ settled s0)
  /\ (exists rs s',
        daemon_run 0 grants_T1_then_T2 [Refresh ""; TickerC; Refresh "T1"] boot
        = Some (rs, s')
        /\ settled s').
Proof.
  split.
  - apply (proj1 (period_follows_lifetime 0 grants_T1_then_T2) 0). lia.
  - apply (proj2 (period_follows_lifetime 0 grants_T1_then_T2)), settled_boot.
Defined.

Lemma issuer_down_every_input_fetches_witness :
  exists rs s',
    daemon_run 0 unreachable [Refresh ""; TickerC; Refresh "A"] boot = Some (rs, s')
    /\ calls s' = (calls boot + 3)%nat
    /\ tickDuration s' = tickDuration boot
    /\ Ticket (ticketCache s') = ""
    /\ Forall (fun r => rslt_ticket r = "" /\ rslt_err r <> None) rs.
Proof.
  apply (issuer_down_every_input_fetches 0 unreachable
           [Refresh ""; TickerC; Refresh "A"] boot).
  - intros n. exact I.
  - reflexivity.
Defined.

Lemma same_ticket_again_every_call_fetches_witness :
  exists s',
    daemon_run 0 (grants "A" 7200) (repeat (Refresh "A") 3) holding_A
    = Some (repeat (mkRslt "A" None) 3, s')
    /\ calls s' = (calls holding_A + 3)%nat.
Proof.
  apply (same_ticket_again_every_call_fetches 0 (grants "A" 7200) 3 "A" holding_A).
  - intros k. exists 7200. split; [exists "ok"; reflexivity | lia].
  - exact A_is_not_stale_for_A.
Defined.
